(** * Live/static timetable reconciliation of the BMTC stop endpoint

    A shallow embedding of the Cloudflare Pages function that serves
    [/api/bmtc/stops?stopid=...]: the CSV reader of the static timetable,
    the destination normalizer, the live-feed adapter and the request
    handler that chooses between the two sources.

    Conventions of the embedding.
    - A JavaScript string is a [string]; its characters are code units
      below 256.
    - A JavaScript number that is an integer or NaN is an [option Z],
      [None] being NaN. A [Date] is its time value in milliseconds, again
      with [None] for an invalid date.
    - A value that may be [null], [undefined] or of another type than the
      one the code goes on to use is an [option].
    - A block that can throw is a computation in the [result] monad;
      [try]/[catch] is [try_catch].
    - Everything the handler reads from outside (the clock, the [Date]
      parser of the platform, the two [fetch] calls) is a field of
      [World]. *)

From Stdlib Require Import ZArith String Ascii List Sorted Permutation DecimalString.
From stdpp Require Import base tactics option list sorting strings gmap.

Local Open Scope string_scope.
Local Open Scope Z_scope.

(** ** The fragment of the JavaScript runtime the handler uses *)

Module JS.

(** White space of [String.prototype.trim] and of the regular
    expression class [\s], among code units below 256. *)
Definition is_ws (c : ascii) : bool :=
  let n := nat_of_ascii c in
  ((9 <=? n)%nat && (n <=? 13)%nat) || (n =? 32)%nat || (n =? 160)%nat.

Definition is_digit (c : ascii) : bool :=
  let n := nat_of_ascii c in (48 <=? n)%nat && (n <=? 57)%nat.

Definition is_empty (s : string) : bool :=
  match s with EmptyString => true | String _ _ => false end.

Fixpoint trimStart (s : string) : string :=
  match s with
  | EmptyString => EmptyString
  | String c r => if is_ws c then trimStart r else s
  end.

Fixpoint trimEnd (s : string) : string :=
  match s with
  | EmptyString => EmptyString
  | String c r =>
      let r' := trimEnd r in
      if is_ws c && is_empty r' then EmptyString else String c r'
  end.

Definition trim (s : string) : string := trimEnd (trimStart s).

Fixpoint startsWith (p s : string) : bool :=
  match p, s with
  | EmptyString, _ => true
  | String a p', String b s' => if Ascii.eqb a b then startsWith p' s' else false
  | String _ _, EmptyString => false
  end.

(** [s.includes(p)] *)
Fixpoint includes (s p : string) : bool :=
  startsWith p s ||
  match s with
  | EmptyString => false
  | String _ r => includes r p
  end.

(** [s.split(sep)] for a separator of one character. *)
Fixpoint split (sep : ascii) (s : string) : list string :=
  match s with
  | EmptyString => [EmptyString]
  | String c r =>
      if Ascii.eqb c sep then EmptyString :: split sep r
      else match split sep r with
           | h :: t => String c h :: t
           | [] => [String c EmptyString]
           end
  end.

(** [!s] for a value that is a string or missing. *)
Definition falsy (s : option string) : bool :=
  match s with
  | None => true
  | Some s => is_empty s
  end.

(** Value of a run of decimal digits read after [acc]. *)
Fixpoint digits_value (acc : Z) (s : string) : Z :=
  match s with
  | EmptyString => acc
  | String c r =>
      if is_digit c then digits_value (acc * 10 + (Z.of_nat (nat_of_ascii c) - 48)) r
      else acc
  end.

Fixpoint all_digits (s : string) : bool :=
  match s with
  | EmptyString => true
  | String c r => is_digit c && all_digits r
  end.

(** Splits off a leading sign: the factor and the rest. *)
Definition take_sign (s : string) : Z * string :=
  match s with
  | String c r =>
      if Ascii.eqb c "-" then (-1, r)
      else if Ascii.eqb c "+" then (1, r)
      else (1, s)
  | EmptyString => (1, s)
  end.

(** [parseInt(s, 10)]: white space is skipped, then a sign and the
    longest run of digits are read; NaN when there is no digit, and for
    [undefined]. Integers are exact here (the doubles of the source are
    exact below 2^53). *)
Definition parseInt (s : option string) : option Z :=
  match s with
  | None => None
  | Some s =>
      let (sign, r) := take_sign (trimStart s) in
      match r with
      | String c _ => if is_digit c then Some (sign * digits_value 0 r) else None
      | EmptyString => None
      end
  end.

(** [Number(s)] on the strings a sort key is read from: after trimming,
    the empty string is 0 and a signed run of digits is its value.
    Every other string is NaN here; the numeric literals with a
    fraction, an exponent or a radix prefix, and [Infinity], which the
    source would also read as numbers, are outside this model. *)
Definition Number (s : string) : option Z :=
  let t := trim s in
  if is_empty t then Some 0
  else
    let (sign, r) := take_sign t in
    if negb (is_empty r) && all_digits r then Some (sign * digits_value 0 r)
    else None.

(** [String(n)] for an integer or NaN (below 10^21 in absolute value,
    where the source prints all digits). *)
Definition String_of (n : option Z) : string :=
  match n with
  | None => "NaN"
  | Some z => NilZero.string_of_int (Z.to_int z)
  end.

(** [s.padStart(2, '0')] *)
Definition padStart2 (s : string) : string :=
  match s with
  | EmptyString => "00"
  | String c EmptyString => String "0" s
  | _ => s
  end.

(** Arithmetic and comparisons with NaN. *)
Definition add (a b : option Z) : option Z :=
  match a, b with Some x, Some y => Some (x + y) | _, _ => None end.
Definition sub (a b : option Z) : option Z :=
  match a, b with Some x, Some y => Some (x - y) | _, _ => None end.
Definition mul (a b : option Z) : option Z :=
  match a, b with Some x, Some y => Some (x * y) | _, _ => None end.
Definition lt (a b : option Z) : bool :=
  match a, b with Some x, Some y => (x <? y)%Z | _, _ => false end.
Definition gt (a b : option Z) : bool :=
  match a, b with Some x, Some y => (y <? x)%Z | _, _ => false end.
Definition ge (a b : option Z) : bool :=
  match a, b with Some x, Some y => (y <=? x)%Z | _, _ => false end.

(** [date.getUTCHours()] and [date.getUTCMinutes()] *)
Definition getUTCHours (t : option Z) : option Z :=
  match t with Some ms => Some ((ms / 3600000) mod 24) | None => None end.
Definition getUTCMinutes (t : option Z) : option Z :=
  match t with Some ms => Some ((ms / 60000) mod 60) | None => None end.

(** [Array.prototype.sort] with a comparator: a stable sort, here by
    insertion; a NaN from the comparator counts as 0. *)
Section Sort.
Context {A : Type} (compare : A -> A -> option Z).

Fixpoint insert (x : A) (l : list A) : list A :=
  match l with
  | [] => [x]
  | y :: l' => if gt (compare x y) (Some 0) then y :: insert x l' else x :: l
  end.

Definition sort (l : list A) : list A := foldr insert [] l.
End Sort.

End JS.

(** ** Destination normalizer *)

Definition mapDestinationToLine (destination : option string) : string :=
  match destination with
  | None => "Unknown"
  | Some d =>
      if JS.is_empty d then "Unknown"
      else
        let normalized := JS.trim d in
        if String.eqb normalized "KR Pura" || JS.includes normalized "KR Pura"
        then "Purple Line"
        else if String.eqb normalized "Silk Board" || JS.includes normalized "Silk Board"
        then "Yellow Line"
        else "Unknown"
  end.

(** ** CSV line reader *)

(** The double quote character. *)
Definition dquote : ascii := ascii_of_nat 34.

Definition newline : ascii := ascii_of_nat 10.

(** The body of the [for] loop of [parseCSVLine], started at the rest
    [line] of the input with the loop's three variables. *)
Fixpoint parseCSVLine_from (line : string) (result : list string)
    (current : string) (inQuotes : bool) : list string :=
  match line with
  | EmptyString => result ++ [JS.trim current]
  | String char rest =>
      if Ascii.eqb char dquote then
        parseCSVLine_from rest result current (negb inQuotes)
      else if Ascii.eqb char "," && negb inQuotes then
        parseCSVLine_from rest (result ++ [JS.trim current]) EmptyString inQuotes
      else
        parseCSVLine_from rest result (current ++ String char EmptyString) inQuotes
  end.

Definition parseCSVLine (line : string) : list string :=
  parseCSVLine_from line [] EmptyString false.


(** ** Exceptions *)

Inductive result (A : Type) : Type :=
| Ok (a : A)
| Throw (message : string).
Arguments Ok {A} a.
Arguments Throw {A} message.

#[global] Instance result_ret : MRet result := fun A a => Ok a.

#[global] Instance result_bind : MBind result := fun A B k m =>
  match m with
  | Ok a => k a
  | Throw e => Throw e
  end.

(** [try { body } catch (error) { handler }] *)
Definition try_catch {A : Type} (body : result A) (handler : string -> A) : A :=
  match body with
  | Ok a => a
  | Throw e => handler e
  end.

(** ** [Set] of strings, in insertion order *)

Module JSSet.

Abbreviation t := (list string).

Definition empty : t := [].

Definition has (s : t) (x : string) : bool := bool_decide (x ∈ s).

Definition add (s : t) (x : string) : t := if has s x then s else s ++ [x].

(** [new Set(array)] *)
Definition of_array (l : list string) : t := fold_left add l empty.

(** [Array.from(set)] *)
Definition to_array (s : t) : list string := s.

End JSSet.

(** ** Data model *)

Module Trip.
Record t : Type := mk { route_name : string; time : string; towards : string }.
End Trip.

Module TimetableResult.
Record t : Type :=
  mk { trips : list Trip.t; routes : list string; towards : string }.

(** The value the static loader returns from its [catch] block. *)
Definition empty : t := mk [] [] "Unknown".
End TimetableResult.

(** One arrival of the live feed, an object with a string [routeno].
    [arrivaltime] is [None] when the field is missing or is no string,
    [tostationname] when it is missing. *)
Record BMTCTrip : Type := {
  routeno : string;
  tostationname : option string;
  arrivaltime : option string
}.

(** The parsed body of the live feed's answer. [data] is an array, or
    [None] when the field is missing or [null]. *)
Record BMTCResult : Type := {
  Issuccess : bool;
  data : option (list BMTCTrip)
}.

(** What [fetch(timetableUrl)] does: the promise rejects, or it resolves
    to a response with its [ok] flag, its status and its text ([None]
    when reading the text rejects). *)
Inductive static_fetch : Type :=
| StaticRejects
| StaticResponse (ok : bool) (status : Z) (text : option string).

(** What the POST to the live feed does: the promise rejects, or it
    resolves to a response with its [ok] flag and its parsed body ([None]
    when [json()] rejects or the body is no object). *)
Inductive live_fetch : Type :=
| LiveRejects
| LiveResponse (ok : bool) (json : option BMTCResult).

Record World : Type := {
  (** [new Date()], in milliseconds *)
  now : Z;
  (** time value of [new Date(isoString)], [None] for an invalid date *)
  Date_parse : string -> option Z;
  (** the static timetable of a stop id *)
  fetch_timetable : string -> static_fetch;
  (** the live arrivals of a stop id *)
  fetch_live : string -> live_fetch
}.

(** ** Static timetable loader *)

(** The three variables the [for] loop of [loadStaticTimetable] updates. *)
Record static_state : Type := {
  st_trips : list Trip.t;
  st_routes : JSSet.t;
  st_towards : option string
}.

Definition static_init : static_state :=
  {| st_trips := []; st_routes := JSSet.empty; st_towards := None |}.

(** One iteration of the loop, on [lines[i]]. *)
Definition static_step (st : static_state) (raw : string) : static_state :=
  let line := JS.trim raw in
  if JS.is_empty line then st
  else
    let values := parseCSVLine line in
    if (4 <=? length values)%nat then
      let route_name := nth 1 values EmptyString in
      let time := nth 2 values EmptyString in
      let towards_direction := nth 3 values EmptyString in
      let lineName := mapDestinationToLine (Some towards_direction) in
      {| st_trips := st_trips st ++ [Trip.mk route_name time lineName];
         st_routes := JSSet.add (st_routes st) route_name;
         st_towards := if JS.falsy (st_towards st) then Some lineName
                       else st_towards st |}
    else st.

(** [towards && towards !== 'Unknown' ? towards : 'Unknown'] *)
Definition finalTowards_of (towards : option string) : string :=
  match towards with
  | Some t => if negb (JS.is_empty t) && negb (String.eqb t "Unknown") then t
              else "Unknown"
  | None => "Unknown"
  end.

(** The timetable read from the text of the CSV file; the loop starts at
    index 1. *)
Definition parseStaticCSV (csvText : string) : TimetableResult.t :=
  let lines := JS.split newline csvText in
  let st := fold_left static_step (tail lines) static_init in
  TimetableResult.mk (st_trips st) (JSSet.to_array (st_routes st))
    (finalTowards_of (st_towards st)).

(** ** Live feed adapter: the parts that do not read the world *)

(** The regular expression [\s(\d{2}):(\d{2}):\d{2}] tried at the start
    of [s]; the two groups of a match. *)
Definition timeMatch_at (s : string) : option (string * string) :=
  match s with
  | String w0 (String h1 (String h2 (String c1 (String m1 (String m2
      (String c2 (String s1 (String s2 _)))))))) =>
      if JS.is_ws w0 && JS.is_digit h1 && JS.is_digit h2 && Ascii.eqb c1 ":"
         && JS.is_digit m1 && JS.is_digit m2 && Ascii.eqb c2 ":"
         && JS.is_digit s1 && JS.is_digit s2
      then Some (String h1 (String h2 EmptyString), String m1 (String m2 EmptyString))
      else None
  | _ => None
  end.

(** [s.match(/\s(\d{2}):(\d{2}):\d{2}/)]: the leftmost match. *)
Fixpoint timeMatch (s : string) : option (string * string) :=
  match timeMatch_at s with
  | Some groups => Some groups
  | None =>
      match s with
      | EmptyString => None
      | String _ r => timeMatch r
      end
  end.

(** The [else] branch that rebuilds the clock time from the date. *)
Definition fallbackTimeString (arrivalTime : option Z) : string :=
  let utcHours := JS.getUTCHours arrivalTime in
  let utcMinutes := JS.getUTCMinutes arrivalTime in
  let istHours := JS.add utcHours (Some 5) in
  let istMinutes := JS.add utcMinutes (Some 30) in
  let overflow := JS.ge istMinutes (Some 60) in
  let istHours := if overflow then JS.add istHours (Some 1) else istHours in
  let istMinutes := if overflow then JS.sub istMinutes (Some 60) else istMinutes in
  let istHours := if JS.ge istHours (Some 24) then JS.sub istHours (Some 24) else istHours in
  JS.padStart2 (JS.String_of istHours) ++ ":" ++ JS.padStart2 (JS.String_of istMinutes).

(** [hours * 60 + minutes] of a trip's time, as the comparator of the
    sort reads it. *)
Definition timeKey (t : Trip.t) : option Z :=
  let parts := JS.Number <$> JS.split ":" (Trip.time t) in
  JS.add (JS.mul (parts !! 0%nat ≫= id) (Some 60)) (parts !! 1%nat ≫= id).

Definition compareTrips (a b : Trip.t) : option Z := JS.sub (timeKey a) (timeKey b).

(** [a || b] on strings that may be missing. *)
Definition or_else (a : option string) (b : string) : string :=
  match a with
  | Some x => if JS.is_empty x then b else x
  | None => b
  end.

(** The variables the [forEach] callback of the adapter updates. *)
Record live_state : Type := {
  lv_trips : list Trip.t;
  lv_routes : JSSet.t;
  lv_towards : option string
}.

(** [forEach] with a callback that can throw. *)
Fixpoint forEach {S A : Type} (f : S -> A -> result S) (l : list A) (st : S) : result S :=
  match l with
  | [] => Ok st
  | x :: l' => st' ← f st x; forEach f l' st'
  end.

(** ** Responses *)

Inductive Body : Type :=
| NoBody
| TextBody (text : string)
| TimetableBody (r : TimetableResult.t)
| ErrorBody (error : string) (message : option string).

Record Response : Type := {
  status : Z;
  headers : list (string * string);
  body : Body
}.

Record Request : Type := {
  method : string;
  (** [url.searchParams.get('stopid')] *)
  stopid : option string
}.

Definition getCORSHeaders : list (string * string) :=
  [("Access-Control-Allow-Origin", "*");
   ("Access-Control-Allow-Methods", "GET, OPTIONS");
   ("Access-Control-Allow-Headers", "Content-Type")].

Definition handleCORS : Response :=
  {| status := 204; headers := getCORSHeaders; body := NoBody |}.

Definition jsonHeaders : list (string * string) :=
  ("Content-Type", "application/json") :: getCORSHeaders.

Definition noCacheHeaders : list (string * string) :=
  [("Content-Type", "application/json");
   ("Cache-Control", "no-cache, no-store, must-revalidate");
   ("Pragma", "no-cache");
   ("Expires", "0")] ++ getCORSHeaders.

(** The 200 answer that carries a timetable. *)
Definition timetableResponse (r : TimetableResult.t) : Response :=
  {| status := 200; headers := noCacheHeaders; body := TimetableBody r |}.

Section Handler.

Variable w : World.

(** The [try] block of [loadStaticTimetable]. *)
Definition loadStaticTimetable_try (stopId : string) : result TimetableResult.t :=
  match fetch_timetable w stopId with
  | StaticRejects => Throw "fetch failed"
  | StaticResponse ok status text =>
      if negb ok then Throw "Failed to fetch static timetable"
      else
        match text with
        | None => Throw "text failed"
        | Some csvText => Ok (parseStaticCSV csvText)
        end
  end.

Definition loadStaticTimetable (stopId : string) : TimetableResult.t :=
  try_catch (loadStaticTimetable_try stopId) (fun _ => TimetableResult.empty).

(** ** Live feed adapter *)

Definition parseBMTCDate (dateString : string) : option Z :=
  let parts := JS.split " " dateString in
  let dateParts := JS.split "-" (nth 0 parts EmptyString) in
  let timeParts :=
    if JS.falsy (parts !! 1%nat) then ["0"; "0"; "0"]
    else JS.split ":" (nth 1 parts EmptyString) in
  let day := JS.parseInt (dateParts !! 0%nat) in
  let month := JS.sub (JS.parseInt (dateParts !! 1%nat)) (Some 1) in
  let year := JS.parseInt (dateParts !! 2%nat) in
  let hours := JS.parseInt (timeParts !! 0%nat) in
  let minutes := JS.parseInt (timeParts !! 1%nat) in
  let seconds := JS.parseInt (timeParts !! 2%nat) in
  let pad n := JS.padStart2 (JS.String_of n) in
  let isoString :=
    JS.String_of year ++ "-" ++ pad (JS.add month (Some 1)) ++ "-" ++ pad day
    ++ "T" ++ pad hours ++ ":" ++ pad minutes ++ ":" ++ pad seconds ++ "+05:30" in
  Date_parse w isoString.

(** [duration_ms < 0 || duration_ms > 90 * 60 * 1000] *)
Definition outsideWindow (duration_ms : option Z) : bool :=
  JS.lt duration_ms (Some 0) || JS.gt duration_ms (Some (90 * 60 * 1000)).

(** [allowedRoutes && !allowedRoutes.has(routeNo)] *)
Definition notAllowed (allowedRoutes : option JSSet.t) (routeNo : string) : bool :=
  match allowedRoutes with
  | Some allowed => negb (JSSet.has allowed routeNo)
  | None => false
  end.

(** The callback of [data.forEach]. Reading the arrival time of a
    record that has none throws. *)
Definition live_step (allowedRoutes : option JSSet.t) (staticTowards : option string)
    (st : live_state) (trip : BMTCTrip) : result live_state :=
  let routeNo := routeno trip in
  let destination := tostationname trip in
  if notAllowed allowedRoutes routeNo then Ok st
  else
    match arrivaltime trip with
    | None => Throw "Cannot read properties of undefined"
    | Some text =>
        let arrivalTime := parseBMTCDate text in
        let duration_ms := JS.sub arrivalTime (Some (now w)) in
        if outsideWindow duration_ms then Ok st
        else
          let timeString :=
            match timeMatch text with
            | Some (hh, mm) => hh ++ ":" ++ mm
            | None => fallbackTimeString arrivalTime
            end in
          let lineName := or_else staticTowards (mapDestinationToLine destination) in
          Ok {| lv_trips := lv_trips st ++ [Trip.mk routeNo timeString lineName];
                lv_routes := JSSet.add (lv_routes st) routeNo;
                lv_towards := if JS.falsy (lv_towards st) then Some lineName
                              else lv_towards st |}
    end.

Definition live_init (staticTowards : option string) : live_state :=
  {| lv_trips := [];
     lv_routes := JSSet.empty;
     lv_towards := if JS.falsy staticTowards then None else staticTowards |}.

Definition convertBMTCToTimetableFormat (data : list BMTCTrip)
    (allowedRoutes : option JSSet.t) (staticTowards : option string)
    : result TimetableResult.t :=
  st ← forEach (live_step allowedRoutes staticTowards) data (live_init staticTowards);
  let trips := JS.sort compareTrips (lv_trips st) in
  let finalTowards := or_else staticTowards (finalTowards_of (lv_towards st)) in
  Ok (TimetableResult.mk trips (JSSet.to_array (lv_routes st)) finalTowards).

(** ** Request handler *)

(** The inner [try] block: the value of [liveData] after it, [None]
    being [null]. *)
Definition liveAttempt (stopId : string) (staticData : TimetableResult.t)
    : result (option TimetableResult.t) :=
  let allowedRoutes := JSSet.of_array (TimetableResult.routes staticData) in
  match fetch_live w stopId with
  | LiveRejects => Throw "fetch failed"
  | LiveResponse ok json =>
      if ok then
        match json with
        | None => Throw "json failed"
        | Some result =>
            if Issuccess result then
              match data result with
              | Some ((_ :: _) as records) =>
                  liveData ← convertBMTCToTimetableFormat records
                               (Some allowedRoutes)
                               (Some (TimetableResult.towards staticData));
                  Ok (Some liveData)
              | _ => Ok None
              end
            else Ok None
        end
      else Ok None
  end.

(** The outer [try] block. *)
Definition onRequest_try (request : Request) : result Response :=
  match stopid request with
  | None =>
      Ok {| status := 400; headers := jsonHeaders;
            body := ErrorBody "stopid parameter is required" None |}
  | Some stopId =>
      if JS.is_empty stopId then
        Ok {| status := 400; headers := jsonHeaders;
              body := ErrorBody "stopid parameter is required" None |}
      else
        let staticData := loadStaticTimetable stopId in
        let liveData := try_catch (liveAttempt stopId staticData) (fun _ => None) in
        match liveData with
        | Some live =>
            if (0 <? length (TimetableResult.trips live))%nat
            then Ok (timetableResponse live)
            else Ok (timetableResponse staticData)
        | None => Ok (timetableResponse staticData)
        end
  end.

Definition onRequest (request : Request) : Response :=
  if String.eqb (method request) "OPTIONS" then handleCORS
  else if negb (String.eqb (method request) "GET") then
    {| status := 405; headers := getCORSHeaders; body := TextBody "Method not allowed" |}
  else
    try_catch (onRequest_try request)
      (fun message =>
         {| status := 500; headers := jsonHeaders;
            body := ErrorBody "Failed to fetch stop data" (Some message) |}).

End Handler.

(** ** A reference [Date] parser

    The time value of [YYYY-MM-DDTHH:MM:SS+05:30], the format
    [parseBMTCDate] builds, for running the handler on concrete inputs.
    Strings of another shape are invalid dates here. *)

Module RefDate.

Definition daysFromCivil (y m d : Z) : Z :=
  let y' := if m <=? 2 then y - 1 else y in
  let era := y' / 400 in
  let yoe := y' - era * 400 in
  let mp := if 2 <? m then m - 3 else m + 9 in
  let doy := (153 * mp + 2) / 5 + d - 1 in
  let doe := yoe * 365 + yoe / 4 - yoe / 100 + doy in
  era * 146097 + doe - 719468.

Definition isLeap (y : Z) : bool :=
  ((y mod 4 =? 0) && negb (y mod 100 =? 0)) || (y mod 400 =? 0).

Definition daysInMonth (y m : Z) : Z :=
  if m =? 2 then (if isLeap y then 29 else 28)
  else if (m =? 4) || (m =? 6) || (m =? 9) || (m =? 11) then 30
  else 31.

(** A field of exactly [n] digits. *)
Definition field (n : nat) (s : string) : option Z :=
  if (String.length s =? n)%nat && JS.all_digits s then Some (JS.digits_value 0 s)
  else None.

Definition parse (iso : string) : option Z :=
  match JS.split "T" iso with
  | [date; clock] =>
      match JS.split "-" date, JS.split ":" clock with
      | [ys; ms; ds], [hs; mins; rest; "30"] =>
          match JS.split "+" rest with
          | [ss; "05"] =>
              y ← field 4 ys; m ← field 2 ms; d ← field 2 ds;
              h ← field 2 hs; mi ← field 2 mins; sec ← field 2 ss;
              if (1 <=? m) && (m <=? 12) && (1 <=? d) && (d <=? daysInMonth y m)
                 && (h <=? 23) && (mi <=? 59) && (sec <=? 59)
              then Some (daysFromCivil y m d * 86400000 + h * 3600000
                         + mi * 60000 + sec * 1000 - 19800000)
              else None
          | _ => None
          end
      | _, _ => None
      end
  | _ => None
  end.

End RefDate.

(** ** Vocabulary of the properties *)

(** [p] occurs in [s]. *)
Definition contains (s p : string) : Prop :=
  exists a b : string, s = (a ++ p ++ b)%string.

(** The trimmed text the normalizer looks at; nothing for a missing
    destination. *)
Definition trimmed (destination : option string) : string :=
  match destination with
  | Some d => JS.trim d
  | None => EmptyString
  end.

(** Two digits, a colon, two digits. *)
Definition isHHMM (s : string) : bool :=
  match s with
  | String h1 (String h2 (String c (String m1 (String m2 EmptyString)))) =>
      JS.is_digit h1 && JS.is_digit h2 && Ascii.eqb c ":"
      && JS.is_digit m1 && JS.is_digit m2
  | _ => false
  end.

(** Two digits. *)
Definition twoDigits (s : string) : bool :=
  match s with
  | String a (String b EmptyString) => JS.is_digit a && JS.is_digit b
  | _ => false
  end.

(** [a] is not later than [b], by [hours * 60 + minutes]. *)
Definition time_le (a b : Trip.t) : Prop :=
  match timeKey a, timeKey b with
  | Some x, Some y => x <= y
  | _, _ => False
  end.

#[global] Instance time_le_dec : RelDecision time_le.
Proof.
  intros a b. unfold time_le.
  destruct (timeKey a), (timeKey b); try (right; tauto).
  apply Z_le_dec.
Defined.

Definition sorted_by_time (l : list Trip.t) : Prop := Sorted time_le l.

(** [routes] holds the route names of [trips], each once. *)
Definition routes_follow (trips : list Trip.t) (routes : list string) : Prop :=
  NoDup routes /\ forall x : string, x ∈ routes <-> x ∈ Trip.route_name <$> trips.

(** The routes of a timetable are the route names of its trips, each
    once. *)
Definition routes_exact (r : TimetableResult.t) : Prop :=
  routes_follow (TimetableResult.trips r) (TimetableResult.routes r).

(** The trip a line of the CSV file stands for, if any. *)
Definition rowTrip (raw : string) : option Trip.t :=
  let line := JS.trim raw in
  let values := parseCSVLine line in
  if JS.is_empty line then None
  else if (4 <=? length values)%nat then
    Some (Trip.mk (nth 1 values EmptyString) (nth 2 values EmptyString)
            (mapDestinationToLine (Some (nth 3 values EmptyString))))
  else None.

Fixpoint hasChar (c : ascii) (s : string) : bool :=
  match s with
  | EmptyString => false
  | String x r => Ascii.eqb x c || hasChar c r
  end.

(** A stretch of a field as it is written in a line: between quotes or
    bare. *)
Definition renderSegment (g : bool * string) : string :=
  if fst g then String dquote (snd g ++ String dquote EmptyString) else snd g.

(** A field is written as a run of such stretches. *)
Fixpoint renderField (f : list (bool * string)) : string :=
  match f with
  | [] => EmptyString
  | g :: f' => (renderSegment g ++ renderField f')%string
  end.

(** The text of the field, without the quotes. *)
Fixpoint fieldContent (f : list (bool * string)) : string :=
  match f with
  | [] => EmptyString
  | g :: f' => (snd g ++ fieldContent f')%string
  end.

Fixpoint renderLine (fs : list (list (bool * string))) : string :=
  match fs with
  | [] => EmptyString
  | [f] => renderField f
  | f :: fs' => (renderField f ++ String "," (renderLine fs'))%string
  end.

(** A stretch holds no quote, and no comma unless it is quoted. *)
Definition segmentOk (g : bool * string) : bool :=
  negb (hasChar dquote (snd g)) && (fst g || negb (hasChar "," (snd g))).

Definition fieldOk (f : list (bool * string)) : bool := forallb segmentOk f.

Section LiveVocabulary.

Variable w : World.

(** Milliseconds from now to the arrival of a record. *)
Definition duration_ms (trip : BMTCTrip) : option Z :=
  JS.sub (arrivaltime trip ≫= parseBMTCDate w) (Some (now w)).

(** The record passes the allow-list and the time window. *)
Definition surfaces (allowedRoutes : option JSSet.t) (trip : BMTCTrip) : bool :=
  negb (notAllowed allowedRoutes (routeno trip)) && negb (outsideWindow (duration_ms trip)).

(** The trip a surfaced record becomes. *)
Definition tripOf (staticTowards : option string) (trip : BMTCTrip) : Trip.t :=
  let text := default EmptyString (arrivaltime trip) in
  Trip.mk (routeno trip)
    match timeMatch text with
    | Some (hh, mm) => (hh ++ ":" ++ mm)%string
    | None => fallbackTimeString (parseBMTCDate w text)
    end
    (or_else staticTowards (mapDestinationToLine (tostationname trip))).

(** The state after the callback has run on a surfaced record. *)
Definition pushed (staticTowards : option string) (st : live_state)
    (trip : BMTCTrip) : live_state :=
  let t := tripOf staticTowards trip in
  {| lv_trips := lv_trips st ++ [t];
     lv_routes := JSSet.add (lv_routes st) (Trip.route_name t);
     lv_towards := if JS.falsy (lv_towards st) then Some (Trip.towards t)
                   else lv_towards st |}.

(** The arrival text of the record shows a clock time or is a valid
    date. *)
Definition timeReadable (trip : BMTCTrip) : Prop :=
  forall text : string, arrivaltime trip = Some text ->
    is_Some (timeMatch text) \/ is_Some (parseBMTCDate w text).

End LiveVocabulary.

(** ** Sample inputs *)

(** The text of a file from its lines. *)
Fixpoint unlines (l : list string) : string :=
  match l with
  | [] => EmptyString
  | [x] => x
  | x :: l' => (x ++ String newline (unlines l'))%string
  end.

Module Sample.

(** 2025-10-31, 14:10:00 at +05:30 *)
Definition now_ms : Z := 1761900000000.

Definition timetable_csv : string :=
  unlines ["stop,route,time,towards";
           "1,500A,06:30:00,KR Pura";
           "1,500B,14:45,KR Pura"].

Definition unsorted_csv : string :=
  unlines ["stop,route,time,towards";
           "1,500A,10:00,KR Pura";
           "1,500A,09:00,KR Pura"].

Definition arrival (route destination text : string) : BMTCTrip :=
  {| routeno := route; tostationname := Some destination; arrivaltime := Some text |}.

(** Two buses due, one gone, one more than 90 minutes away, and one of
    a route the timetable does not know. *)
Definition arrivals : list BMTCTrip :=
  [arrival "500B" "KR Pura" "31-10-2025 14:50:00";
   arrival "500A" "KR Pura" "31-10-2025 14:30:00";
   arrival "500A" "KR Pura" "31-10-2025 14:00:00";
   arrival "500A" "KR Pura" "31-10-2025 17:25:00";
   arrival "X1" "Majestic" "31-10-2025 14:20:00"].

Definition live_ok : live_fetch :=
  LiveResponse true (Some {| Issuccess := true; data := Some arrivals |}).

(** The world at [now_ms] with the given timetable file, if there is
    one, and the given answer of the live feed. *)
Definition world (csvText : option string) (live : live_fetch) : World :=
  {| now := now_ms;
     Date_parse := RefDate.parse;
     fetch_timetable := fun _ =>
       match csvText with
       | Some text => StaticResponse true 200 (Some text)
       | None => StaticResponse false 404 None
       end;
     fetch_live := fun _ => live |}.

Definition request : Request := {| method := "GET"; stopid := Some "20568" |}.

Definition live_result : TimetableResult.t :=
  TimetableResult.mk
    [Trip.mk "500A" "14:30" "Purple Line"; Trip.mk "500B" "14:50" "Purple Line"]
    ["500B"; "500A"] "Purple Line".

Definition static_result : TimetableResult.t :=
  TimetableResult.mk
    [Trip.mk "500A" "06:30:00" "Purple Line"; Trip.mk "500B" "14:45" "Purple Line"]
    ["500A"; "500B"] "Purple Line".

Definition unsorted_result : TimetableResult.t :=
  TimetableResult.mk
    [Trip.mk "500A" "10:00" "Purple Line"; Trip.mk "500A" "09:00" "Purple Line"]
    ["500A"] "Purple Line".

End Sample.

(** ** Further vocabulary *)

(** The three line names a timetable can point to. *)
Definition isLineId (s : string) : Prop :=
  s = "Purple Line" \/ s = "Yellow Line" \/ s = "Unknown".

(** Only white space. *)
Fixpoint allWs (s : string) : bool :=
  match s with
  | EmptyString => true
  | String c r => JS.is_ws c && allWs r
  end.

(** The 405 and 400 answers of the handler. *)
Definition methodNotAllowed : Response :=
  {| status := 405; headers := getCORSHeaders; body := TextBody "Method not allowed" |}.

Definition stopidRequired : Response :=
  {| status := 400; headers := jsonHeaders;
     body := ErrorBody "stopid parameter is required" None |}.

(** Hour and minute of an instant on a clock at +05:30. *)
Definition istHour (instant : Z) : Z := ((instant + 19800000) / 3600000) mod 24.
Definition istMinute (instant : Z) : Z := ((instant + 19800000) / 60000) mod 60.

(** Two digits, a colon, two digits, a colon, two digits. *)
Definition isHHMMSS (s : string) : bool :=
  match s with
  | String h1 (String h2 (String c1 (String m1 (String m2 (String c2
      (String s1 (String s2 EmptyString))))))) =>
      JS.is_digit h1 && JS.is_digit h2 && Ascii.eqb c1 ":"
      && JS.is_digit m1 && JS.is_digit m2 && Ascii.eqb c2 ":"
      && JS.is_digit s1 && JS.is_digit s2
  | _ => false
  end.

(** A clock time as the timetables have it: HH:MM or HH:MM:SS. *)
Definition isClock (s : string) : bool := isHHMM s || isHHMMSS s.


(** The line of the first element, "Unknown" when there is none. *)
Definition firstLine {A : Type} (line : A -> string) (l : list A) : string :=
  match l with
  | [] => "Unknown"
  | x :: _ => line x
  end.

(** Four digits, the first not a zero. *)
Definition yearText (s : string) : bool :=
  match s with
  | String a (String b (String c (String d EmptyString))) =>
      JS.is_digit a && negb (Ascii.eqb a "0") && JS.is_digit b && JS.is_digit c
      && JS.is_digit d
  | _ => false
  end.

(** [DD-MM-YYYY HH:MM:SS], the text of an arrival in the live feed. *)
Definition bmtcDay (dd mm yyyy : string) : string :=
  (dd ++ String "-" (mm ++ String "-" yyyy))%string.

Definition bmtcClock (hh mi ss : string) : string :=
  (hh ++ String ":" (mi ++ String ":" ss))%string.

Definition bmtcDateText (dd mm yyyy hh mi ss : string) : string :=
  (bmtcDay dd mm yyyy ++ String " " (bmtcClock hh mi ss))%string.

(** [YYYY-MM-DDTHH:MM:SS+05:30] *)
Definition isoDateText (yyyy mm dd hh mi ss : string) : string :=
  (yyyy ++ "-" ++ mm ++ "-" ++ dd ++ "T" ++ hh ++ ":" ++ mi ++ ":" ++ ss ++ "+05:30")%string.

(** ** Sorting by a key *)

Section KeyOrder.

Context {A : Type} (key : A -> option Z).

(** The comparator [(a, b) => key(a) - key(b)]. *)
Definition keyCompare (a b : A) : option Z := JS.sub (key a) (key b).

Definition key_le (a b : A) : Prop :=
  match key a, key b with
  | Some x, Some y => x <= y
  | _, _ => False
  end.

End KeyOrder.

(** ** The page that shows a stop

    The client reads the same timetable files and the answers of the
    handler. Its [parseCSVLine] and [mapDestinationToLine] are the
    functions of the handler, word for word. *)

Module NextTrip.
Record t : Type :=
  mk { time : string; route : string; towards : string; minutes : option Z }.
End NextTrip.

(** The callback of [trips.map] in [getNextTrips]. *)
Definition nextTripOf (currentTime : Z) (trip : Trip.t) : NextTrip.t :=
  NextTrip.mk (Trip.time trip) (Trip.route_name trip) (Trip.towards trip)
    (JS.sub (timeKey trip) (Some currentTime)).

(** [getNextTrips(trips, maxTrips)] at [nowHours:nowMinutes] on the clock
    of the browser; [maxTrips] is a count. *)
Definition getNextTrips (nowHours nowMinutes : Z) (trips : list Trip.t)
    (maxTrips : nat) : list NextTrip.t :=
  match trips with
  | [] => []
  | _ =>
      let currentTime := nowHours * 60 + nowMinutes in
      take maxTrips
        (JS.sort (keyCompare NextTrip.minutes)
           (filter (fun trip => JS.ge (NextTrip.minutes trip) (Some 0) = true)
              (nextTripOf currentTime <$> trips)))
  end.

Module TimetableData.
Record t : Type :=
  mk { name : string; trips : list Trip.t; routes : list string; towards : string }.
End TimetableData.

(** The variables the loop of [loadTimetableForStop] updates. *)
Record client_state : Type := {
  cl_trips : list Trip.t;
  cl_routes : list string;
  cl_towards : option string
}.

Definition client_init : client_state :=
  {| cl_trips := []; cl_routes := []; cl_towards := None |}.

(** One iteration of the loop, on [stopLines[j]]: the line is read as it
    is, not trimmed. *)
Definition client_step (st : client_state) (raw : string) : client_state :=
  if JS.is_empty (JS.trim raw) then st
  else
    let stopValues := parseCSVLine raw in
    if (4 <=? length stopValues)%nat then
      let route_name := nth 1 stopValues EmptyString in
      let time := nth 2 stopValues EmptyString in
      let towards_direction := nth 3 stopValues EmptyString in
      let lineName := mapDestinationToLine (Some towards_direction) in
      {| cl_trips := cl_trips st ++ [Trip.mk route_name time lineName];
         cl_routes := if bool_decide (route_name ∈ cl_routes st) then cl_routes st
                      else cl_routes st ++ [route_name];
         cl_towards := if JS.falsy (cl_towards st) then Some lineName
                       else cl_towards st |}
    else st.

(** The timetable the client builds from the text of the file. *)
Definition clientTimetable (stopName towards stopCsvText : string) : TimetableData.t :=
  let stopLines := JS.split newline stopCsvText in
  let st := fold_left client_step (tail stopLines) client_init in
  let finalTowards :=
    match cl_towards st with
    | Some t => if negb (JS.is_empty t) && negb (String.eqb t "Unknown") then t
                else towards
    | None => towards
    end in
  TimetableData.mk stopName (cl_trips st) (cl_routes st) finalTowards.

Definition emptyData (stopName towards : string) : TimetableData.t :=
  TimetableData.mk stopName [] [] towards.

(** The inner [try] block of [loadTimetableForStop]; the status of the
    response is not looked at. *)
Definition loadTimetableForStop_try (w : World) (stopId stopName towards : string)
    : result TimetableData.t :=
  match fetch_timetable w stopId with
  | StaticRejects => Throw "fetch failed"
  | StaticResponse _ _ None => Throw "text failed"
  | StaticResponse _ _ (Some stopCsvText) =>
      Ok (clientTimetable stopName towards stopCsvText)
  end.

(** One call of [loadTimetableForStop] on the cache [window.timetableData]:
    the timetable returned and the cache after the call. The cache is
    the object's own entries; this is what a lookup of the object gives
    for every key that is not a member of [Object.prototype], stop ids
    among them. *)
Definition loadTimetableForStop (w : World) (cache : gmap string TimetableData.t)
    (stopId stopName towards : string)
    : TimetableData.t * gmap string TimetableData.t :=
  match cache !! stopId with
  | Some timetableData => (timetableData, cache)
  | None =>
      match loadTimetableForStop_try w stopId stopName towards with
      | Ok timetableData => (timetableData, <[stopId := timetableData]> cache)
      | Throw _ =>
          (emptyData stopName towards, <[stopId := emptyData stopName towards]> cache)
      end
  end.

(** * Properties *)

(** ** Strings *)

Lemma append_cons (c : ascii) (a b : string) :
  (String c a ++ b)%string = String c (a ++ b)%string.
Proof. reflexivity. Qed.

Lemma append_nil_l (b : string) : (EmptyString ++ b)%string = b.
Proof. reflexivity. Qed.

Lemma append_nil_r (a : string) : (a ++ EmptyString)%string = a.
Proof. induction a as [|c a IH]; [done|]. rewrite append_cons. congruence. Qed.

Lemma append_assoc (a b c : string) :
  ((a ++ b) ++ c)%string = (a ++ (b ++ c))%string.
Proof. induction a as [|x a IH]; [done|]. rewrite !append_cons. congruence. Qed.

Lemma startsWith_spec (p s : string) :
  JS.startsWith p s = true <-> exists b : string, s = (p ++ b)%string.
Proof.
  revert s. induction p as [|a p IH]; intros s; simpl.
  - split; [eauto|done].
  - destruct s as [|b s].
    + split; [done|]. intros [? ?]; discriminate.
    + destruct (Ascii.eqb_spec a b) as [->|Hne].
      * rewrite IH. split; intros [x Hx]; exists x; rewrite append_cons in *; congruence.
      * split; [done|]. intros [x Hx]. rewrite append_cons in Hx. congruence.
Qed.

Lemma includes_spec (s p : string) : JS.includes s p = true <-> contains s p.
Proof.
  unfold contains. induction s as [|c s IH]; simpl.
  - rewrite orb_false_r, startsWith_spec. split.
    + intros [b Hb]. exists EmptyString, b. done.
    + intros ([|] & b & Hb); [eauto | discriminate].
  - rewrite orb_true_iff, startsWith_spec, IH. split.
    + intros [[b Hb] | (a & b & Hab)].
      * exists EmptyString, b. done.
      * exists (String c a), b. rewrite append_cons. congruence.
    + intros ([|c' a] & b & Hab); [rewrite append_nil_l in Hab | rewrite append_cons in Hab].
      * left. eauto.
      * right. exists a, b. congruence.
Qed.

Lemma includes_false (s p : string) : JS.includes s p = false <-> ~ contains s p.
Proof. rewrite <- includes_spec. destruct (JS.includes s p); split; congruence. Qed.

Lemma contains_self (p : string) : contains p p.
Proof.
  exists EmptyString, EmptyString. by rewrite append_nil_l, append_nil_r.
Qed.

(** ** Destination normalizer *)

(** C4. The normalizer looks at the trimmed destination: it answers
    "Purple Line" when "KR Pura" occurs in it, otherwise "Yellow Line" when
    "Silk Board" occurs in it, otherwise "Unknown"; an empty or missing
    destination gives "Unknown". "KR Pura" wins when both occur. *)
Theorem mapDestinationToLine_spec (destination : option string) :
  (contains (trimmed destination) "KR Pura" ->
     mapDestinationToLine destination = "Purple Line") /\
  (~ contains (trimmed destination) "KR Pura" ->
   contains (trimmed destination) "Silk Board" ->
     mapDestinationToLine destination = "Yellow Line") /\
  (~ contains (trimmed destination) "KR Pura" ->
   ~ contains (trimmed destination) "Silk Board" ->
     mapDestinationToLine destination = "Unknown") /\
  (destination = None \/ destination = Some EmptyString ->
     mapDestinationToLine destination = "Unknown").
Proof.
  destruct destination as [d|]; simpl.
  2: {
    repeat split; try done.
    - intros Hc. apply includes_spec in Hc. discriminate.
    - intros _ Hc. apply includes_spec in Hc. discriminate.
  }
  destruct d as [|c d].
  { repeat split; try done.
    - intros Hc. apply includes_spec in Hc. discriminate.
    - intros _ Hc. apply includes_spec in Hc. discriminate. }
  cbn [JS.is_empty].
  set (n := JS.trim (String c d)).
  repeat split.
  - intros Hc. apply includes_spec in Hc. rewrite Hc, orb_true_r. done.
  - intros Hn Hc. apply includes_false in Hn. apply includes_spec in Hc.
    rewrite Hn, Hc, !orb_true_r, orb_false_r.
    destruct (String.eqb_spec n "KR Pura") as [Heq|]; [|done].
    apply includes_false in Hn. destruct Hn. rewrite Heq. apply contains_self.
  - intros Hn Hs.
    destruct (String.eqb_spec n "KR Pura") as [Heq|].
    { destruct Hn. rewrite Heq. apply contains_self. }
    destruct (String.eqb_spec n "Silk Board") as [Heq|].
    { destruct Hs. rewrite Heq. apply contains_self. }
    apply includes_false in Hn, Hs. rewrite Hn, Hs. done.
  - intros [|]; discriminate.
Qed.

Lemma mapDestinationToLine_spec_witness :
  contains (trimmed (Some "  KR Pura via Silk Board ")) "KR Pura" /\
  mapDestinationToLine (Some "  KR Pura via Silk Board ") = "Purple Line".
Proof.
  assert (H : contains (trimmed (Some "  KR Pura via Silk Board ")) "KR Pura").
  { exists EmptyString, " via Silk Board". reflexivity. }
  split; [exact H|].
  exact (proj1 (mapDestinationToLine_spec (Some "  KR Pura via Silk Board ")) H).
Defined.

(** ** CSV reader *)

(** Content without a quote, and without a comma unless the reader is
    inside quotes, is appended to the current field. *)
Lemma parseCSVLine_from_content (c rest : string) (result : list string)
    (current : string) (inQuotes : bool) :
  hasChar dquote c = false ->
  inQuotes = true \/ hasChar "," c = false ->
  parseCSVLine_from (c ++ rest) result current inQuotes
  = parseCSVLine_from rest result (current ++ c) inQuotes.
Proof.
  revert current. induction c as [|x c IH]; intros current Hq Hc.
  - by rewrite append_nil_l, append_nil_r.
  - rewrite append_cons. cbn [parseCSVLine_from hasChar] in *.
    apply orb_false_iff in Hq as [Hx Hq]. rewrite Hx.
    assert (Ascii.eqb x "," && negb inQuotes = false) as ->.
    { destruct Hc as [->|Hc]; [apply andb_false_r|].
      apply orb_false_iff in Hc as [-> _]. done. }
    rewrite IH.
    + by rewrite append_assoc, append_cons, append_nil_l.
    + done.
    + destruct Hc as [?|Hc]; [by left|right].
      by apply orb_false_iff in Hc as [_ ?].
Qed.

Lemma parseCSVLine_from_segment (g : bool * string) (rest : string)
    (result : list string) (current : string) :
  segmentOk g = true ->
  parseCSVLine_from (renderSegment g ++ rest) result current false
  = parseCSVLine_from rest result (current ++ snd g) false.
Proof.
  destruct g as [quoted content]. unfold segmentOk, renderSegment. simpl.
  intros [Hq Hc]%andb_true_iff. apply negb_true_iff in Hq.
  destruct quoted; simpl in Hc.
  - rewrite append_cons. cbn [parseCSVLine_from].
    change (Ascii.eqb dquote dquote) with true. cbv iota.
    rewrite append_assoc, parseCSVLine_from_content by auto.
    rewrite append_cons, append_nil_l. cbn [parseCSVLine_from].
    change (Ascii.eqb dquote dquote) with true. done.
  - apply negb_true_iff in Hc. by rewrite parseCSVLine_from_content by auto.
Qed.

Lemma parseCSVLine_from_field (f : list (bool * string)) (rest : string)
    (result : list string) (current : string) :
  fieldOk f = true ->
  parseCSVLine_from (renderField f ++ rest) result current false
  = parseCSVLine_from rest result (current ++ fieldContent f) false.
Proof.
  revert current. induction f as [|g f IH]; intros current Hok.
  - cbn [renderField fieldContent]. by rewrite append_nil_l, append_nil_r.
  - cbn [fieldOk forallb] in Hok. apply andb_true_iff in Hok as [Hg Hf].
    cbn [renderField fieldContent].
    rewrite append_assoc, parseCSVLine_from_segment by done.
    rewrite IH by done. by rewrite append_assoc.
Qed.

Lemma parseCSVLine_from_render (fs : list (list (bool * string))) (result : list string) :
  fs <> [] ->
  Forall (fun f => fieldOk f = true) fs ->
  parseCSVLine_from (renderLine fs) result EmptyString false
  = (result ++ ((fun f => JS.trim (fieldContent f)) <$> fs))%list.
Proof.
  revert result. induction fs as [|f fs IH]; intros result Hne Hok; [done|].
  apply Forall_cons in Hok as [Hf Hok].
  destruct fs as [|f' fs].
  - cbn [renderLine]. rewrite <- (append_nil_r (renderField f)).
    rewrite parseCSVLine_from_field by done. by rewrite append_nil_l.
  - change (renderLine (f :: f' :: fs))
      with (renderField f ++ String "," (renderLine (f' :: fs)))%string.
    rewrite parseCSVLine_from_field by done. rewrite append_nil_l.
    cbn [parseCSVLine_from]. change (Ascii.eqb "," dquote) with false.
    change (Ascii.eqb "," "," && negb false) with true. cbv iota.
    rewrite IH by done. rewrite fmap_cons, <- app_assoc. done.
Qed.

(** The loader's loop adds the trip of each line that stands for one. *)
Lemma static_step_rowTrip (st : static_state) (raw : string) :
  static_step st raw =
  match rowTrip raw with
  | None => st
  | Some t =>
      {| st_trips := (st_trips st ++ [t])%list;
         st_routes := JSSet.add (st_routes st) (Trip.route_name t);
         st_towards := if JS.falsy (st_towards st) then Some (Trip.towards t)
                       else st_towards st |}
  end.
Proof.
  unfold static_step, rowTrip.
  destruct (JS.is_empty (JS.trim raw)); [done|].
  by destruct (4 <=? length (parseCSVLine (JS.trim raw)))%nat.
Qed.

Lemma static_loop_trips (lines : list string) (st : static_state) :
  st_trips (fold_left static_step lines st) = (st_trips st ++ omap rowTrip lines)%list.
Proof.
  revert st. induction lines as [|raw lines IH]; intros st; simpl.
  - by rewrite app_nil_r.
  - rewrite IH, static_step_rowTrip.
    destruct (rowTrip raw); simpl; [|done]. by rewrite <- app_assoc.
Qed.

Lemma split_no_separator (sep : ascii) (h rest : string) :
  hasChar sep h = false ->
  JS.split sep (h ++ String sep rest) = h :: JS.split sep rest.
Proof.
  induction h as [|c h IH]; intros Hh.
  - rewrite append_nil_l. cbn [JS.split]. by rewrite Ascii.eqb_refl.
  - cbn [hasChar] in Hh. apply orb_false_iff in Hh as [Hc Hh].
    rewrite append_cons. cbn [JS.split]. rewrite Hc, IH by done. done.
Qed.

(** C8. The line reader switches between bare and quoted text at every
    quote, keeps commas that stand between quotes, ends a field at every
    other comma and trims every field, the last one too: a line written
    from fields, each a run of bare and quoted stretches, gives back the
    trimmed texts of the fields. After a quote that is never closed the
    rest of the line is
    the last field and the fields read so far are kept. In the loader a
    line with fewer than four columns adds nothing, the trips are those
    of the lines after the first, and the first line has no influence. *)
Theorem csv_reader_spec :
  (forall fs : list (list (bool * string)),
     fs <> [] -> Forall (fun f => fieldOk f = true) fs ->
     parseCSVLine (renderLine fs) = (fun f => JS.trim (fieldContent f)) <$> fs) /\
  (forall (c : string) (result : list string) (current : string),
     hasChar dquote c = false ->
     parseCSVLine_from (String dquote c) result current false
     = (result ++ [JS.trim (current ++ c)%string])%list) /\
  (forall (st : static_state) (raw : string),
     (length (parseCSVLine (JS.trim raw)) < 4)%nat -> static_step st raw = st) /\
  (forall csvText : string,
     TimetableResult.trips (parseStaticCSV csvText)
     = omap rowTrip (tail (JS.split newline csvText))) /\
  (forall header1 header2 rest : string,
     hasChar newline header1 = false -> hasChar newline header2 = false ->
     parseStaticCSV (header1 ++ String newline rest)
     = parseStaticCSV (header2 ++ String newline rest)).
Proof.
  repeat split.
  - intros fs Hne Hok. unfold parseCSVLine.
    by rewrite parseCSVLine_from_render.
  - intros c result current Hc. cbn [parseCSVLine_from].
    change (Ascii.eqb dquote dquote) with true. cbv iota.
    rewrite <- (append_nil_r c) at 1.
    rewrite parseCSVLine_from_content by auto. done.
  - intros st raw Hlen. unfold static_step.
    destruct (JS.is_empty (JS.trim raw)); [done|].
    destruct (Nat.leb_spec 4 (length (parseCSVLine (JS.trim raw)))); [lia|done].
  - intros csvText. unfold parseStaticCSV. cbn [TimetableResult.trips].
    by rewrite static_loop_trips.
  - intros header1 header2 rest H1 H2. unfold parseStaticCSV.
    fold newline. by rewrite !split_no_separator.
Qed.

Lemma csv_reader_spec_witness :
  parseCSVLine
    (renderLine [[(false, " 7 ")]; [(true, "a,b")]; [(false, "x"); (true, ", y"); (false, "z ")]])
  = ["7"; "a,b"; "x, yz"].
Proof.
  apply (proj1 csv_reader_spec
           [[(false, " 7 ")]; [(true, "a,b")]; [(false, "x"); (true, ", y"); (false, "z ")]]).
  - discriminate.
  - repeat constructor.
Defined.

(** ** Sets in insertion order *)

Lemma JSSet_has_true (s : list string) (x : string) : JSSet.has s x = true <-> x ∈ s.
Proof. unfold JSSet.has. apply bool_decide_eq_true. Qed.

Lemma JSSet_elem_of_add (s : list string) (x y : string) :
  x ∈ JSSet.add s y <-> x ∈ s \/ x = y.
Proof.
  unfold JSSet.add, JSSet.has. case_bool_decide as Hy.
  - split; [by left|]. intros [?| ->]; done.
  - rewrite elem_of_app, list_elem_of_singleton. done.
Qed.

Lemma JSSet_NoDup_add (s : list string) (y : string) :
  NoDup s -> NoDup (JSSet.add s y).
Proof.
  intros Hs. unfold JSSet.add, JSSet.has. case_bool_decide as Hy; [done|].
  apply NoDup_app. split_and!; [done| |apply NoDup_singleton].
  intros x Hx ->%list_elem_of_singleton. done.
Qed.

Lemma JSSet_of_array_from (l : list string) (s : list string) (x : string) :
  x ∈ fold_left JSSet.add l s <-> x ∈ s \/ x ∈ l.
Proof.
  revert s. induction l as [|y l IH]; intros s; simpl.
  - rewrite elem_of_nil. tauto.
  - rewrite IH, JSSet_elem_of_add, elem_of_cons. tauto.
Qed.

Lemma JSSet_elem_of_of_array (l : list string) (x : string) :
  x ∈ JSSet.of_array l <-> x ∈ l.
Proof.
  unfold JSSet.of_array. rewrite JSSet_of_array_from.
  unfold JSSet.empty. rewrite elem_of_nil. tauto.
Qed.

(** ** Routes and trips grow together *)

Lemma routes_follow_nil : routes_follow [] JSSet.empty.
Proof. split; [apply NoDup_nil_2|]. intros x. by rewrite fmap_nil. Qed.

Lemma routes_follow_push (trips : list Trip.t) (routes : list string) (t : Trip.t) :
  routes_follow trips routes ->
  routes_follow (trips ++ [t]) (JSSet.add routes (Trip.route_name t)).
Proof.
  intros [Hnd Hiff]. split; [by apply JSSet_NoDup_add|].
  intros x. rewrite JSSet_elem_of_add, fmap_app, elem_of_app, Hiff.
  simpl. rewrite list_elem_of_singleton. done.
Qed.

Lemma routes_follow_perm (trips trips' : list Trip.t) (routes : list string) :
  trips ≡ₚ trips' -> routes_follow trips routes -> routes_follow trips' routes.
Proof.
  intros Hp [Hnd Hiff]. split; [done|]. intros x. rewrite Hiff.
  by rewrite Hp.
Qed.

Lemma static_loop_routes (lines : list string) (st : static_state) :
  routes_follow (st_trips st) (st_routes st) ->
  routes_follow (st_trips (fold_left static_step lines st))
    (st_routes (fold_left static_step lines st)).
Proof.
  revert st. induction lines as [|raw lines IH]; intros st Hst; [done|].
  simpl. apply IH. rewrite static_step_rowTrip.
  destruct (rowTrip raw); [|done]. by apply routes_follow_push.
Qed.

Lemma parseStaticCSV_routes (csvText : string) : routes_exact (parseStaticCSV csvText).
Proof.
  unfold routes_exact, parseStaticCSV. cbn [TimetableResult.routes TimetableResult.trips].
  apply static_loop_routes, routes_follow_nil.
Qed.

Lemma loadStaticTimetable_routes (w : World) (stopId : string) :
  routes_exact (loadStaticTimetable w stopId).
Proof.
  unfold loadStaticTimetable, loadStaticTimetable_try.
  destruct (fetch_timetable w stopId) as [|ok status [csvText|]];
    try destruct ok; simpl; try apply parseStaticCSV_routes;
    apply routes_follow_nil.
Qed.

(** ** The sort *)

Lemma insert_perm {A : Type} (compare : A -> A -> option Z) (x : A) (l : list A) :
  JS.insert compare x l ≡ₚ x :: l.
Proof.
  induction l as [|y l IH]; [done|]. simpl.
  destruct (JS.gt (compare x y) (Some 0)); [|done].
  rewrite IH. apply Permutation_swap.
Qed.

Lemma sort_perm {A : Type} (compare : A -> A -> option Z) (l : list A) :
  JS.sort compare l ≡ₚ l.
Proof.
  induction l as [|x l IH]; [done|]. unfold JS.sort in *. simpl.
  by rewrite insert_perm, IH.
Qed.

(** ** Live feed adapter *)

Section LiveFacts.

Variable w : World.
Variable allowedRoutes : option JSSet.t.
Variable staticTowards : option string.

Lemma live_step_Ok (st st' : live_state) (trip : BMTCTrip) :
  live_step w allowedRoutes staticTowards st trip = Ok st' ->
  st' = if surfaces w allowedRoutes trip then pushed w staticTowards st trip else st.
Proof.
  unfold live_step, surfaces, duration_ms, pushed, tripOf.
  destruct (notAllowed allowedRoutes (routeno trip)); simpl; [congruence|].
  destruct (arrivaltime trip) as [text|]; simpl; [|discriminate].
  destruct (outsideWindow _); simpl; [congruence|].
  destruct (timeMatch text) as [[hh mm]|]; congruence.
Qed.

Lemma live_step_total (st : live_state) (trip : BMTCTrip) :
  (notAllowed allowedRoutes (routeno trip) = false -> is_Some (arrivaltime trip)) ->
  exists st', live_step w allowedRoutes staticTowards st trip = Ok st'.
Proof.
  unfold live_step. intros Hsome.
  destruct (notAllowed allowedRoutes (routeno trip)); [eauto|].
  destruct Hsome as [text ->]; [done|].
  destruct (outsideWindow _); eauto.
Qed.

Lemma forEach_live_trips (data : list BMTCTrip) (st st' : live_state) :
  forEach (live_step w allowedRoutes staticTowards) data st = Ok st' ->
  lv_trips st' =
  (lv_trips st ++
     (tripOf w staticTowards <$> filter (fun trip => surfaces w allowedRoutes trip = true) data))%list.
Proof.
  revert st. induction data as [|trip data IH]; intros st; simpl.
  - intros [= <-]. by rewrite app_nil_r.
  - destruct (live_step w allowedRoutes staticTowards st trip) as [st1|e] eqn:Hstep;
      simpl; [|discriminate].
    intros Hrest. rewrite (IH _ Hrest). apply live_step_Ok in Hstep as ->.
    rewrite filter_cons. destruct (surfaces w allowedRoutes trip) eqn:Hs.
    + rewrite decide_True by done. simpl. by rewrite <- app_assoc.
    + rewrite decide_False by done. done.
Qed.

Lemma forEach_live_routes (data : list BMTCTrip) (st st' : live_state) :
  forEach (live_step w allowedRoutes staticTowards) data st = Ok st' ->
  routes_follow (lv_trips st) (lv_routes st) ->
  routes_follow (lv_trips st') (lv_routes st').
Proof.
  revert st. induction data as [|trip data IH]; intros st; simpl.
  - by intros [= <-].
  - destruct (live_step w allowedRoutes staticTowards st trip) as [st1|e] eqn:Hstep;
      simpl; [|discriminate].
    intros Hrest Hst. apply (IH _ Hrest).
    apply live_step_Ok in Hstep as ->.
    destruct (surfaces w allowedRoutes trip); [|done].
    by apply routes_follow_push.
Qed.

Lemma forEach_live_total (data : list BMTCTrip) (st : live_state) :
  Forall (fun trip => notAllowed allowedRoutes (routeno trip) = false ->
                      is_Some (arrivaltime trip)) data ->
  exists st', forEach (live_step w allowedRoutes staticTowards) data st = Ok st'.
Proof.
  intros Hall. revert st. induction Hall as [|trip data Htrip _ IH]; intros st; simpl.
  - eauto.
  - destruct (live_step_total st trip Htrip) as [st1 ->]. simpl. apply IH.
Qed.

Lemma convert_Ok (data : list BMTCTrip) (r : TimetableResult.t) :
  convertBMTCToTimetableFormat w data allowedRoutes staticTowards = Ok r ->
  exists st',
    forEach (live_step w allowedRoutes staticTowards) data (live_init staticTowards) = Ok st'
    /\ r = TimetableResult.mk (JS.sort compareTrips (lv_trips st'))
             (JSSet.to_array (lv_routes st'))
             (or_else staticTowards (finalTowards_of (lv_towards st'))).
Proof.
  unfold convertBMTCToTimetableFormat.
  destruct (forEach _ data _) as [st'|e]; simpl; [|discriminate].
  intros [= <-]. eauto.
Qed.

(** The adapter answers unless a record that passes the allow-list has
    no arrival time to read. *)
Lemma convert_total (data : list BMTCTrip) :
  Forall (fun trip => notAllowed allowedRoutes (routeno trip) = false ->
                      is_Some (arrivaltime trip)) data ->
  exists r, convertBMTCToTimetableFormat w data allowedRoutes staticTowards = Ok r.
Proof.
  intros Hall. unfold convertBMTCToTimetableFormat.
  destruct (forEach_live_total data (live_init staticTowards) Hall) as [st' ->].
  simpl. eauto.
Qed.

Lemma convert_trips (data : list BMTCTrip) (r : TimetableResult.t) :
  convertBMTCToTimetableFormat w data allowedRoutes staticTowards = Ok r ->
  TimetableResult.trips r =
  JS.sort compareTrips
    (tripOf w staticTowards <$> filter (fun trip => surfaces w allowedRoutes trip = true) data).
Proof.
  intros (st' & Hloop & ->)%convert_Ok. simpl.
  by rewrite (forEach_live_trips _ _ _ Hloop).
Qed.

Lemma convert_routes (data : list BMTCTrip) (r : TimetableResult.t) :
  convertBMTCToTimetableFormat w data allowedRoutes staticTowards = Ok r ->
  routes_exact r.
Proof.
  intros (st' & Hloop & ->)%convert_Ok. unfold routes_exact. simpl.
  apply (routes_follow_perm (lv_trips st')); [by rewrite sort_perm|].
  apply (forEach_live_routes _ _ _ Hloop). apply routes_follow_nil.
Qed.

End LiveFacts.

Lemma outsideWindow_spec (duration : option Z) :
  outsideWindow duration = true <->
  exists d : Z, duration = Some d /\ (d < 0 \/ 90 * 60 * 1000 < d).
Proof.
  unfold outsideWindow. destruct duration as [d|]; simpl.
  - rewrite orb_true_iff, !Z.ltb_lt. split.
    + intros H. exists d. done.
    + intros (? & [= <-] & H). done.
  - split; [done|]. intros (? & ? & _). done.
Qed.

(** C6. What the adapter returns holds one trip for each record that
    passes the allow-list and the time window, and nothing else; a record
    that passes the allow-list is left out exactly when its arrival is a
    valid instant before now or more than 90 minutes after now. *)
Theorem live_window_spec (w : World) (data : list BMTCTrip)
    (allowedRoutes : option JSSet.t) (staticTowards : option string)
    (r : TimetableResult.t) :
  convertBMTCToTimetableFormat w data allowedRoutes staticTowards = Ok r ->
  TimetableResult.trips r ≡ₚ
    (tripOf w staticTowards <$> filter (fun trip => surfaces w allowedRoutes trip = true) data)
  /\
  forall (trip : BMTCTrip) (text : string),
    arrivaltime trip = Some text ->
    notAllowed allowedRoutes (routeno trip) = false ->
    (surfaces w allowedRoutes trip = false <->
     exists instant : Z,
       parseBMTCDate w text = Some instant /\
       (instant < now w \/ now w + 90 * 60 * 1000 < instant)).
Proof.
  intros Hr. split.
  - rewrite (convert_trips _ _ _ _ _ Hr). apply sort_perm.
  - intros trip text Htext Hallowed. unfold surfaces, duration_ms.
    rewrite Hallowed, Htext. simpl. rewrite negb_false_iff, outsideWindow_spec.
    destruct (parseBMTCDate w text) as [instant|]; simpl.
    + split.
      * intros (d & [= <-] & Hd). exists instant. split; [done|lia].
      * intros (? & [= <-] & Hd). exists (instant - now w). split; [done|lia].
    + split; [intros (? & ? & _)|intros (? & ? & _)]; done.
Qed.

(** ** Clock times *)

Lemma digit_not_ws (c : ascii) : JS.is_digit c = true -> JS.is_ws c = false.
Proof. destruct c as [[] [] [] [] [] [] [] []]; vm_compute; congruence. Qed.

Lemma digit_not_colon (c : ascii) : JS.is_digit c = true -> Ascii.eqb c ":" = false.
Proof. destruct c as [[] [] [] [] [] [] [] []]; vm_compute; congruence. Qed.

Lemma digit_not_sign (c : ascii) :
  JS.is_digit c = true -> Ascii.eqb c "-" = false /\ Ascii.eqb c "+" = false.
Proof. destruct c as [[] [] [] [] [] [] [] []]; vm_compute; split; congruence. Qed.

Lemma Number_two_digits (a b : ascii) :
  JS.is_digit a = true -> JS.is_digit b = true ->
  is_Some (JS.Number (String a (String b EmptyString))).
Proof.
  intros Ha Hb. unfold JS.Number, JS.trim.
  cbn [JS.trimStart]. rewrite (digit_not_ws a Ha).
  cbn [JS.trimEnd JS.is_empty]. rewrite (digit_not_ws a Ha), (digit_not_ws b Hb).
  cbn [andb JS.is_empty JS.take_sign].
  destruct (digit_not_sign a Ha) as [-> ->].
  cbn [JS.is_empty negb JS.all_digits]. rewrite Ha, Hb. simpl. eauto.
Qed.

Lemma isHHMM_inv (s : string) :
  isHHMM s = true ->
  exists h1 h2 m1 m2 : ascii,
    s = String h1 (String h2 (String ":" (String m1 (String m2 EmptyString))))
    /\ JS.is_digit h1 = true /\ JS.is_digit h2 = true
    /\ JS.is_digit m1 = true /\ JS.is_digit m2 = true.
Proof.
  destruct s as [|h1 [|h2 [|c [|m1 [|m2 [|? ?]]]]]]; try discriminate.
  simpl. rewrite !andb_true_iff. intros [[[[H1 H2] Hc] H3] H4].
  apply Ascii.eqb_eq in Hc as ->. exists h1, h2, m1, m2. done.
Qed.

Lemma timeKey_HHMM (t : Trip.t) : isHHMM (Trip.time t) = true -> is_Some (timeKey t).
Proof.
  intros (h1 & h2 & m1 & m2 & Ht & H1 & H2 & H3 & H4)%isHHMM_inv.
  unfold timeKey. rewrite Ht. cbn [JS.split].
  rewrite (digit_not_colon h1 H1), (digit_not_colon h2 H2),
    (digit_not_colon m1 H3), (digit_not_colon m2 H4).
  change (Ascii.eqb ":" ":") with true. cbv iota.
  destruct (Number_two_digits h1 h2 H1 H2) as [x Hx].
  destruct (Number_two_digits m1 m2 H3 H4) as [y Hy].
  simpl. rewrite Hx, Hy. simpl. eauto.
Qed.

(** ** The sort orders the trips *)

Lemma insert_HdRel (x y : Trip.t) (l : list Trip.t) :
  HdRel time_le y l -> time_le y x -> HdRel time_le y (JS.insert compareTrips x l).
Proof.
  intros Hl Hyx. destruct l as [|z l]; simpl; [by constructor|].
  destruct (JS.gt (compareTrips x z) (Some 0)); constructor; [|done].
  by apply HdRel_inv in Hl.
Qed.

Lemma insert_sorted (x : Trip.t) (l : list Trip.t) :
  is_Some (timeKey x) -> Forall (fun t => is_Some (timeKey t)) l ->
  Sorted time_le l -> Sorted time_le (JS.insert compareTrips x l).
Proof.
  intros [kx Hx] Hall Hs. induction l as [|y l IH]; simpl.
  - repeat constructor.
  - apply Forall_cons in Hall as [[ky Hy] Hall].
    apply Sorted_inv in Hs as [Hs Hhd].
    unfold compareTrips at 1. rewrite Hx, Hy. simpl.
    destruct (Z.ltb_spec 0 (kx - ky)).
    + constructor; [by apply IH|]. apply insert_HdRel; [done|].
      unfold time_le. rewrite Hx, Hy. lia.
    + constructor; [by constructor|]. constructor.
      unfold time_le. rewrite Hx, Hy. lia.
Qed.

Lemma sort_sorted (l : list Trip.t) :
  Forall (fun t => is_Some (timeKey t)) l -> Sorted time_le (JS.sort compareTrips l).
Proof.
  induction l as [|x l IH]; intros Hall; [constructor|].
  apply Forall_cons in Hall as [Hx Hall]. unfold JS.sort in *. simpl.
  apply insert_sorted; [done| |by apply IH].
  change (Forall (fun t => is_Some (timeKey t)) (JS.sort compareTrips l)).
  by rewrite sort_perm.
Qed.

Example sample_live_served :
  onRequest (Sample.world (Some Sample.timetable_csv) Sample.live_ok) Sample.request
  = timetableResponse Sample.live_result.
Proof. vm_compute. reflexivity. Qed.

Example sample_static_served :
  onRequest (Sample.world (Some Sample.timetable_csv) LiveRejects) Sample.request
  = timetableResponse Sample.static_result.
Proof. vm_compute. reflexivity. Qed.

(** ** Request handler *)

Section HandlerFacts.

Variable w : World.

Lemma onRequest_GET (request : Request) (stopId : string) :
  method request = "GET" -> stopid request = Some stopId -> stopId <> EmptyString ->
  onRequest w request =
  let staticData := loadStaticTimetable w stopId in
  match try_catch (liveAttempt w stopId staticData) (fun _ => None) with
  | Some live =>
      if (0 <? length (TimetableResult.trips live))%nat then timetableResponse live
      else timetableResponse staticData
  | None => timetableResponse staticData
  end.
Proof.
  intros Hm Hs Hne. unfold onRequest, onRequest_try. rewrite Hm, Hs. simpl.
  destruct stopId as [|c stopId]; [done|]. simpl.
  destruct (try_catch (liveAttempt _ _ _) _) as [live|]; [|done].
  by destruct (0 <? length (TimetableResult.trips live))%nat.
Qed.

(** A timetable in the answer comes from a GET request with a stop id
    and is the live result, which then has trips, or the static one. *)
Lemma onRequest_timetable (request : Request) (r : TimetableResult.t) :
  body (onRequest w request) = TimetableBody r ->
  exists stopId : string,
    method request = "GET" /\ stopid request = Some stopId /\ stopId <> EmptyString /\
    (r = loadStaticTimetable w stopId \/
     liveAttempt w stopId (loadStaticTimetable w stopId) = Ok (Some r) /\
     TimetableResult.trips r <> []).
Proof.
  unfold onRequest.
  destruct (String.eqb_spec (method request) "OPTIONS") as [|_]; [discriminate|].
  destruct (String.eqb_spec (method request) "GET") as [Hm|]; [|discriminate].
  simpl. unfold onRequest_try.
  destruct (stopid request) as [stopId|] eqn:Hs; [|discriminate].
  destruct stopId as [|c stopId]; [discriminate|]. simpl.
  set (stopId' := String c stopId).
  intros Hbody. exists stopId'. split_and!; try done.
  destruct (liveAttempt w stopId' (loadStaticTimetable w stopId')) as [[live|]|e];
    simpl in Hbody.
  - destruct (TimetableResult.trips live) as [|t ts] eqn:Ht; simpl in Hbody.
    + left. congruence.
    + right. injection Hbody as <-. rewrite Ht. done.
  - left. congruence.
  - left. congruence.
Qed.

Lemma liveAttempt_Ok_Some (stopId : string) (staticData live : TimetableResult.t) :
  liveAttempt w stopId staticData = Ok (Some live) ->
  exists records : list BMTCTrip,
    convertBMTCToTimetableFormat w records
      (Some (JSSet.of_array (TimetableResult.routes staticData)))
      (Some (TimetableResult.towards staticData)) = Ok live.
Proof.
  unfold liveAttempt.
  destruct (fetch_live w stopId) as [|[] [result|]]; try discriminate.
  destruct (Issuccess result); [|discriminate].
  destruct (data result) as [[|trip records]|]; try discriminate.
  destruct (convertBMTCToTimetableFormat _ _ _ _) as [r|e] eqn:Hc; simpl; [|discriminate].
  intros [= <-]. eauto.
Qed.

End HandlerFacts.

(** C1. For a GET request with a stop id, the handler answers 200 with
    the live result when the live attempt gave one that has a trip,
    whatever the static result is, and with the static result in every
    other case; when that one has no trip either, the answer is still a
    200 with an empty timetable. *)
Theorem orchestrator_decision (w : World) (request : Request) (stopId : string) :
  method request = "GET" -> stopid request = Some stopId -> stopId <> EmptyString ->
  (forall live : TimetableResult.t,
     liveAttempt w stopId (loadStaticTimetable w stopId) = Ok (Some live) ->
     TimetableResult.trips live <> [] ->
     onRequest w request = timetableResponse live) /\
  ((forall live : TimetableResult.t,
      liveAttempt w stopId (loadStaticTimetable w stopId) = Ok (Some live) ->
      TimetableResult.trips live = []) ->
   onRequest w request = timetableResponse (loadStaticTimetable w stopId)) /\
  status (onRequest w request) = 200 /\
  (exists r : TimetableResult.t, body (onRequest w request) = TimetableBody r) /\
  (TimetableResult.trips (loadStaticTimetable w stopId) = [] ->
   (forall live : TimetableResult.t,
      liveAttempt w stopId (loadStaticTimetable w stopId) = Ok (Some live) ->
      TimetableResult.trips live = []) ->
   exists r : TimetableResult.t,
     onRequest w request = timetableResponse r /\ TimetableResult.trips r = []).
Proof.
  intros Hm Hs Hne. rewrite (onRequest_GET w request stopId Hm Hs Hne). cbv zeta.
  set (staticData := loadStaticTimetable w stopId).
  destruct (liveAttempt w stopId staticData) as [[live|]|e]; simpl.
  - destruct (TimetableResult.trips live) as [|t ts] eqn:Ht; simpl;
      split_and!; eauto;
      try (intros live' [= <-]; intros; congruence);
      try (intros Hnone; specialize (Hnone live eq_refl); congruence);
      try (intros _ Hnone; specialize (Hnone live eq_refl); congruence).
  - split_and!; eauto. intros live' [=].
  - split_and!; eauto. intros live' [=].
Qed.

Lemma orchestrator_decision_witness :
  onRequest (Sample.world (Some Sample.timetable_csv) Sample.live_ok) Sample.request
  = timetableResponse Sample.live_result.
Proof.
  refine (proj1 (orchestrator_decision
                   (Sample.world (Some Sample.timetable_csv) Sample.live_ok)
                   Sample.request "20568" _ _ _) Sample.live_result _ _).
  - reflexivity.
  - reflexivity.
  - discriminate.
  - vm_compute. reflexivity.
  - discriminate.
Defined.

(** C2. When the fetch of the static timetable rejects, answers with a
    status that is not OK, or gives no text, the loader returns the empty
    timetable with "Unknown"; a live attempt that throws is caught. For
    a GET request with a stop id the answer is a 200 with a timetable in
    all these cases, never an error. *)
Theorem upstream_failures_recovered (w : World) (stopId : string) :
  (fetch_timetable w stopId = StaticRejects \/
   (exists (status : Z) (text : option string),
      fetch_timetable w stopId = StaticResponse false status text) \/
   (exists (ok : bool) (status : Z),
      fetch_timetable w stopId = StaticResponse ok status None) ->
   loadStaticTimetable w stopId = TimetableResult.mk [] [] "Unknown") /\
  (forall request : Request,
     method request = "GET" -> stopid request = Some stopId -> stopId <> EmptyString ->
     (forall e : string,
        liveAttempt w stopId (loadStaticTimetable w stopId) = Throw e ->
        onRequest w request = timetableResponse (loadStaticTimetable w stopId)) /\
     (fetch_live w stopId = LiveRejects \/
      (exists ok : bool, fetch_live w stopId = LiveResponse ok None) ->
      onRequest w request = timetableResponse (loadStaticTimetable w stopId)) /\
     status (onRequest w request) = 200 /\
     exists r : TimetableResult.t, body (onRequest w request) = TimetableBody r).
Proof.
  split.
  - unfold loadStaticTimetable, loadStaticTimetable_try.
    intros [-> | [(status & text & ->) | (ok & status & ->)]]; try done.
    by destruct ok.
  - intros request Hm Hs Hne.
    rewrite (onRequest_GET w request stopId Hm Hs Hne). cbv zeta.
    split_and!.
    + by intros e ->.
    + unfold liveAttempt. intros [-> | [ok ->]]; [done|]. by destruct ok.
    + destruct (try_catch _ _) as [live|]; [|done].
      by destruct (0 <? length (TimetableResult.trips live))%nat.
    + destruct (try_catch _ _) as [live|]; [|eauto].
      destruct (0 <? length (TimetableResult.trips live))%nat; eauto.
Qed.

Lemma upstream_failures_recovered_witness :
  loadStaticTimetable (Sample.world None LiveRejects) "20568"
  = TimetableResult.mk [] [] "Unknown" /\
  onRequest (Sample.world None LiveRejects) Sample.request
  = timetableResponse (loadStaticTimetable (Sample.world None LiveRejects) "20568").
Proof.
  split.
  - apply (proj1 (upstream_failures_recovered (Sample.world None LiveRejects) "20568")).
    right. left. exists 404, None. reflexivity.
  - refine (proj1 (proj2 (proj2 (upstream_failures_recovered
              (Sample.world None LiveRejects) "20568") Sample.request _ _ _)) _).
    + reflexivity.
    + reflexivity.
    + discriminate.
    + left. reflexivity.
Defined.

(** ** Allow-list *)

Lemma surfaces_allowed (w : World) (allowed : list string) (trip : BMTCTrip) :
  surfaces w (Some allowed) trip = true -> routeno trip ∈ allowed.
Proof.
  unfold surfaces, notAllowed. intros [Ha _]%andb_true_iff.
  rewrite negb_involutive in Ha. by apply JSSet_has_true.
Qed.

Lemma convert_allowed (w : World) (data : list BMTCTrip) (allowed : list string)
    (staticTowards : option string) (r : TimetableResult.t) (t : Trip.t) :
  convertBMTCToTimetableFormat w data (Some allowed) staticTowards = Ok r ->
  t ∈ TimetableResult.trips r -> Trip.route_name t ∈ allowed.
Proof.
  intros Hr Ht. rewrite (convert_trips _ _ _ _ _ Hr), sort_perm in Ht.
  apply list_elem_of_fmap in Ht as (trip & -> & Htrip).
  apply list_elem_of_filter in Htrip as [Hs _]. simpl.
  by apply surfaces_allowed in Hs.
Qed.

(** C5. A trip of the adapter's result has a route of the allow-list
    it was given. In the handler the allow-list is the route set of the
    static timetable, so every trip of a live result, and every trip of
    any timetable served, has a route of the static timetable. *)
Theorem live_routes_allowed :
  (forall (w : World) (data : list BMTCTrip) (allowed : list string)
          (staticTowards : option string) (r : TimetableResult.t),
     convertBMTCToTimetableFormat w data (Some allowed) staticTowards = Ok r ->
     forall t : Trip.t, t ∈ TimetableResult.trips r -> Trip.route_name t ∈ allowed) /\
  (forall (w : World) (stopId : string) (staticData live : TimetableResult.t),
     liveAttempt w stopId staticData = Ok (Some live) ->
     forall t : Trip.t,
       t ∈ TimetableResult.trips live ->
       Trip.route_name t ∈ TimetableResult.routes staticData) /\
  (forall (w : World) (request : Request) (stopId : string) (r : TimetableResult.t),
     stopid request = Some stopId ->
     body (onRequest w request) = TimetableBody r ->
     forall t : Trip.t,
       t ∈ TimetableResult.trips r ->
       Trip.route_name t ∈ TimetableResult.routes (loadStaticTimetable w stopId)).
Proof.
  assert (Hlive : forall (w : World) (stopId : string) (staticData live : TimetableResult.t),
     liveAttempt w stopId staticData = Ok (Some live) ->
     forall t : Trip.t,
       t ∈ TimetableResult.trips live ->
       Trip.route_name t ∈ TimetableResult.routes staticData).
  { intros w stopId staticData live [records Hr]%liveAttempt_Ok_Some t Ht.
    apply JSSet_elem_of_of_array. by eapply convert_allowed. }
  split_and!.
  - intros w data allowed staticTowards r Hr t Ht. by eapply convert_allowed.
  - exact Hlive.
  - intros w request stopId r Hs Hbody t Ht.
    apply onRequest_timetable in Hbody as (stopId' & _ & Hs' & _ & Hr).
    assert (stopId' = stopId) as -> by congruence.
    destruct Hr as [-> | [Hr _]].
    + destruct (loadStaticTimetable_routes w stopId) as [_ Hiff].
      apply Hiff, list_elem_of_fmap. eauto.
    + by eapply Hlive.
Qed.

Lemma live_routes_allowed_witness :
  Trip.route_name (Trip.mk "500B" "14:50" "Purple Line") ∈ ["500A"; "500B"].
Proof.
  refine (proj1 live_routes_allowed (Sample.world None LiveRejects) Sample.arrivals
            ["500A"; "500B"] (Some "Purple Line") Sample.live_result _
            (Trip.mk "500B" "14:50" "Purple Line") _).
  - vm_compute. reflexivity.
  - apply list_elem_of_further, list_elem_of_here.
Defined.

Lemma live_window_spec_witness :
  TimetableResult.trips Sample.live_result ≡ₚ
    (tripOf (Sample.world None LiveRejects) (Some "Purple Line") <$>
       filter (fun trip => surfaces (Sample.world None LiveRejects)
                             (Some ["500A"; "500B"]) trip = true) Sample.arrivals).
Proof.
  refine (proj1 (live_window_spec (Sample.world None LiveRejects) Sample.arrivals
                   (Some ["500A"; "500B"]) (Some "Purple Line") Sample.live_result _)).
  vm_compute. reflexivity.
Defined.

(** ** Routes *)

(** C7. In a timetable of the static loader, of the live adapter, and
    in every timetable the handler serves, the routes are the route names
    of the trips, each once: a route is listed exactly when a trip has
    it. *)
Theorem routes_are_trip_routes :
  (forall csvText : string, routes_exact (parseStaticCSV csvText)) /\
  (forall (w : World) (stopId : string), routes_exact (loadStaticTimetable w stopId)) /\
  (forall (w : World) (data : list BMTCTrip) (allowedRoutes : option JSSet.t)
          (staticTowards : option string) (r : TimetableResult.t),
     convertBMTCToTimetableFormat w data allowedRoutes staticTowards = Ok r ->
     routes_exact r) /\
  (forall (w : World) (request : Request) (r : TimetableResult.t),
     body (onRequest w request) = TimetableBody r -> routes_exact r).
Proof.
  split_and!.
  - apply parseStaticCSV_routes.
  - apply loadStaticTimetable_routes.
  - intros w data allowedRoutes staticTowards r. apply convert_routes.
  - intros w request r (stopId & _ & _ & _ & Hr)%onRequest_timetable.
    destruct Hr as [-> | [Hr _]]; [apply loadStaticTimetable_routes|].
    apply liveAttempt_Ok_Some in Hr as [records Hr]. by eapply convert_routes.
Qed.

Lemma routes_are_trip_routes_witness : routes_exact Sample.live_result.
Proof.
  refine (proj2 (proj2 (proj2 routes_are_trip_routes))
            (Sample.world (Some Sample.timetable_csv) Sample.live_ok)
            Sample.request Sample.live_result _).
  vm_compute. reflexivity.
Defined.

(** ** Shape of the clock time *)

Lemma isHHMM_join (hh mm : string) :
  twoDigits hh = true -> twoDigits mm = true -> isHHMM (hh ++ ":" ++ mm) = true.
Proof.
  destruct hh as [|a [|b [|? ?]]]; try discriminate.
  destruct mm as [|c [|d [|? ?]]]; try discriminate.
  simpl. intros [-> ->]%andb_true_iff [-> ->]%andb_true_iff. done.
Qed.

Lemma timeMatch_at_twoDigits (s hh mm : string) :
  timeMatch_at s = Some (hh, mm) -> twoDigits hh = true /\ twoDigits mm = true.
Proof.
  unfold timeMatch_at.
  do 9 (destruct s as [|? s]; [discriminate|]).
  match goal with |- (if ?c then _ else _) = _ -> _ => destruct c eqn:Hc end;
    [|discriminate].
  intros [= <- <-]. simpl.
  repeat (apply andb_true_iff in Hc as [Hc ?]).
  split; apply andb_true_iff; done.
Qed.

Lemma timeMatch_twoDigits (s hh mm : string) :
  timeMatch s = Some (hh, mm) -> twoDigits hh = true /\ twoDigits mm = true.
Proof.
  induction s as [|c s IH].
  - cbn [timeMatch]. destruct (timeMatch_at EmptyString) as [[? ?]|] eqn:Hat; [|done].
    intros [= <- <-]. by apply timeMatch_at_twoDigits in Hat.
  - cbn [timeMatch]. destruct (timeMatch_at (String c s)) as [[? ?]|] eqn:Hat; [|done].
    intros [= <- <-]. by apply timeMatch_at_twoDigits in Hat.
Qed.

Lemma padStart2_twoDigits (n : Z) :
  0 <= n < 60 -> twoDigits (JS.padStart2 (JS.String_of (Some n))) = true.
Proof.
  intros Hn.
  assert (Hall : forallb (fun k => twoDigits (JS.padStart2 (JS.String_of (Some (Z.of_nat k)))))
                   (seq 0 60) = true) by (vm_compute; reflexivity).
  rewrite forallb_forall in Hall. specialize (Hall (Z.to_nat n)).
  rewrite Z2Nat.id in Hall by lia. apply Hall, in_seq. lia.
Qed.

Lemma fallbackTimeString_HHMM (instant : Z) :
  isHHMM (fallbackTimeString (Some instant)) = true.
Proof.
  unfold fallbackTimeString. cbn [JS.getUTCHours JS.getUTCMinutes JS.add JS.ge].
  pose proof (Z.mod_pos_bound (instant / 3600000) 24 ltac:(lia)) as Hh.
  pose proof (Z.mod_pos_bound (instant / 60000) 60 ltac:(lia)) as Hm.
  set (h := (instant / 3600000) mod 24) in *.
  set (m := (instant / 60000) mod 60) in *.
  destruct (Z.leb_spec 60 (m + 30)); cbn [JS.add JS.sub JS.ge].
  - destruct (Z.leb_spec 24 (h + 5 + 1)); cbn [JS.sub];
      apply isHHMM_join; apply padStart2_twoDigits; lia.
  - destruct (Z.leb_spec 24 (h + 5)); cbn [JS.sub];
      apply isHHMM_join; apply padStart2_twoDigits; lia.
Qed.

Lemma tripOf_HHMM (w : World) (staticTowards : option string) (trip : BMTCTrip) :
  is_Some (arrivaltime trip) -> timeReadable w trip ->
  isHHMM (Trip.time (tripOf w staticTowards trip)) = true.
Proof.
  intros [text Htext] Hread. destruct (Hread text Htext) as [Hm|Hd];
    unfold tripOf; rewrite Htext; simpl.
  - destruct Hm as [[hh mm] Hm]. rewrite Hm.
    apply timeMatch_twoDigits in Hm as [? ?]. by apply isHHMM_join.
  - destruct (timeMatch text) as [[hh mm]|] eqn:Hm.
    + apply timeMatch_twoDigits in Hm as [? ?]. by apply isHHMM_join.
    + destruct Hd as [instant ->]. apply fallbackTimeString_HHMM.
Qed.

(** When the loop ends without a throw, every record that passes the
    allow-list has an arrival time. *)
Lemma forEach_live_Ok_inv (w : World) (allowedRoutes : option JSSet.t)
    (staticTowards : option string) (data : list BMTCTrip) (st st' : live_state) :
  forEach (live_step w allowedRoutes staticTowards) data st = Ok st' ->
  Forall (fun trip => notAllowed allowedRoutes (routeno trip) = false ->
                      is_Some (arrivaltime trip)) data.
Proof.
  revert st. induction data as [|trip data IH]; intros st; simpl; [by constructor|].
  destruct (live_step w allowedRoutes staticTowards st trip) as [st1|e] eqn:Hstep;
    simpl; [|discriminate].
  intros Hrest. constructor; [|by eapply IH].
  intros Hallowed. unfold live_step in Hstep. rewrite Hallowed in Hstep.
  destruct (arrivaltime trip); [eauto|discriminate].
Qed.

Lemma convert_surfaced_some (w : World) (data : list BMTCTrip)
    (allowedRoutes : option JSSet.t) (staticTowards : option string)
    (r : TimetableResult.t) :
  convertBMTCToTimetableFormat w data allowedRoutes staticTowards = Ok r ->
  Forall (fun trip => is_Some (arrivaltime trip))
    (filter (fun trip => surfaces w allowedRoutes trip = true) data).
Proof.
  intros Hr. destruct (convert_Ok _ _ _ _ _ Hr) as (st' & Hloop & _).
  pose proof (forEach_live_Ok_inv _ _ _ _ _ _ Hloop) as Hsome.
  apply Forall_forall. intros trip [Hs Hin]%list_elem_of_filter.
  rewrite Forall_forall in Hsome. apply Hsome; [done|]. unfold surfaces in Hs.
  apply andb_true_iff in Hs as [Ha _]. by apply negb_true_iff in Ha.
Qed.

(** The trips of a result, each beside the record it is made from. *)
Lemma convert_made (w : World) (data : list BMTCTrip) (allowedRoutes : option JSSet.t)
    (staticTowards : option string) (r : TimetableResult.t) :
  convertBMTCToTimetableFormat w data allowedRoutes staticTowards = Ok r ->
  exists made : list (BMTCTrip * Trip.t),
    fst <$> made = filter (fun trip => surfaces w allowedRoutes trip = true) data /\
    snd <$> made ≡ₚ TimetableResult.trips r /\
    Forall (fun p => is_Some (arrivaltime (fst p)) /\
                     snd p = tripOf w staticTowards (fst p)) made.
Proof.
  intros Hr.
  exists ((fun trip => (trip, tripOf w staticTowards trip)) <$>
            filter (fun trip => surfaces w allowedRoutes trip = true) data).
  split_and!.
  - rewrite <- list_fmap_compose. apply list_fmap_id.
  - rewrite <- list_fmap_compose, (convert_trips _ _ _ _ _ Hr), sort_perm. done.
  - apply Forall_fmap. eapply Forall_impl; [exact (convert_surfaced_some _ _ _ _ _ Hr)|].
    intros trip Hsome. by split.
Qed.

Lemma tripOf_NaN (w : World) (staticTowards : option string) (trip : BMTCTrip)
    (text : string) :
  arrivaltime trip = Some text -> timeMatch text = None -> parseBMTCDate w text = None ->
  Trip.time (tripOf w staticTowards trip) = "NaN:NaN".
Proof. intros Ht Hm Hd. unfold tripOf. rewrite Ht. simpl. by rewrite Hm, Hd. Qed.

Lemma convert_HHMM (w : World) (data : list BMTCTrip) (allowedRoutes : option JSSet.t)
    (staticTowards : option string) (r : TimetableResult.t) :
  convertBMTCToTimetableFormat w data allowedRoutes staticTowards = Ok r ->
  Forall (timeReadable w) (filter (fun trip => surfaces w allowedRoutes trip = true) data) ->
  Forall (fun t => isHHMM (Trip.time t) = true) (TimetableResult.trips r).
Proof.
  intros Hr Hread. rewrite (convert_trips _ _ _ _ _ Hr), sort_perm.
  pose proof (convert_surfaced_some _ _ _ _ _ Hr) as Hsome.
  apply Forall_fmap, Forall_forall. intros trip Hin.
  change (isHHMM (Trip.time (tripOf w staticTowards trip)) = true).
  rewrite Forall_forall in Hread, Hsome.
  apply tripOf_HHMM; [by apply Hsome|by apply Hread].
Qed.

Lemma static_times (lines : list string) :
  Trip.time <$> omap rowTrip lines =
  (fun raw => nth 2 (parseCSVLine (JS.trim raw)) EmptyString) <$>
    filter (fun raw => JS.is_empty (JS.trim raw) = false /\
                       (4 <= length (parseCSVLine (JS.trim raw)))%nat) lines.
Proof.
  induction lines as [|raw lines IH]; [done|].
  change (omap rowTrip (raw :: lines))
    with (match rowTrip raw with
          | Some y => y :: omap rowTrip lines
          | None => omap rowTrip lines
          end).
  rewrite filter_cons. unfold rowTrip at 1.
  destruct (JS.is_empty (JS.trim raw)) eqn:He.
  { rewrite decide_False by (intros [? _]; done). done. }
  destruct (Nat.leb_spec 4 (length (parseCSVLine (JS.trim raw)))) as [Hlen|Hlen].
  - rewrite decide_True by done. rewrite !fmap_cons, IH. done.
  - rewrite decide_False by (intros [_ ?]; lia). done.
Qed.

Lemma rowTrip_time (raw : string) (t : Trip.t) :
  rowTrip raw = Some t ->
  Trip.time t = nth 2 (parseCSVLine (JS.trim raw)) EmptyString.
Proof.
  unfold rowTrip. destruct (JS.is_empty (JS.trim raw)); [discriminate|].
  destruct (4 <=? length (parseCSVLine (JS.trim raw)))%nat; [|discriminate].
  by intros [= <-].
Qed.

(** ** Order of the trips *)

(** C3, as the code has it. The trips of a result of the live adapter
    are sorted non-decreasing by hours*60+minutes whenever each of them
    has a time of the shape HH:MM. The static loader does not sort: its
    trips are those of the rows in the order of the file, so they are
    sorted exactly when the rows are. *)
Theorem live_trips_sorted :
  (forall (w : World) (data : list BMTCTrip) (allowedRoutes : option JSSet.t)
          (staticTowards : option string) (r : TimetableResult.t),
     convertBMTCToTimetableFormat w data allowedRoutes staticTowards = Ok r ->
     Forall (fun t => isHHMM (Trip.time t) = true) (TimetableResult.trips r) ->
     sorted_by_time (TimetableResult.trips r)) /\
  (forall csvText : string,
     sorted_by_time (TimetableResult.trips (parseStaticCSV csvText)) <->
     sorted_by_time (omap rowTrip (tail (JS.split newline csvText)))).
Proof.
  split.
  - intros w data allowedRoutes staticTowards r Hr Hshape.
    rewrite (convert_trips _ _ _ _ _ Hr) in *. apply sort_sorted.
    rewrite sort_perm in Hshape.
    eapply Forall_impl; [exact Hshape|]. intros t. apply timeKey_HHMM.
  - intros csvText. unfold parseStaticCSV. cbn [TimetableResult.trips].
    by rewrite static_loop_trips.
Qed.

Lemma live_trips_sorted_witness :
  sorted_by_time (TimetableResult.trips Sample.live_result).
Proof.
  refine (proj1 live_trips_sorted (Sample.world None LiveRejects) Sample.arrivals
            (Some ["500A"; "500B"]) (Some "Purple Line") Sample.live_result _ _).
  - vm_compute. reflexivity.
  - repeat constructor.
Defined.

(** A timetable file whose rows are not in the order of the clock is
    served as it is. *)
Lemma static_order_counterexample :
  onRequest (Sample.world (Some Sample.unsorted_csv) LiveRejects) Sample.request
  = timetableResponse Sample.unsorted_result /\
  ~ sorted_by_time (TimetableResult.trips Sample.unsorted_result).
Proof.
  split; [vm_compute; reflexivity|].
  intros Hs. apply Sorted_inv in Hs as [_ Hhd]. apply HdRel_inv in Hhd.
  vm_compute in Hhd. by apply Hhd.
Qed.

(** ** Shape of the time of a trip *)

(** C9, as the code has it. Every trip of a result of the live adapter
    is made from a record of the feed that passes the allow-list and the
    window, one trip for each such record. The trip has a time of the
    shape HH:MM when the arrival text of its own record shows a clock
    time or is a valid date, whatever the other records of the feed
    hold, and the text NaN:NaN otherwise. The static loader gives each
    trip the time column of its row as it is written there, trimmed,
    seconds included when the file has them. *)
Theorem trip_time_shape :
  (forall (w : World) (data : list BMTCTrip) (allowedRoutes : option JSSet.t)
          (staticTowards : option string) (r : TimetableResult.t),
     convertBMTCToTimetableFormat w data allowedRoutes staticTowards = Ok r ->
     exists made : list (BMTCTrip * Trip.t),
       fst <$> made = filter (fun trip => surfaces w allowedRoutes trip = true) data /\
       snd <$> made ≡ₚ TimetableResult.trips r /\
       Forall (fun p =>
                 exists text : string,
                   arrivaltime (fst p) = Some text /\
                   Trip.route_name (snd p) = routeno (fst p) /\
                   (is_Some (timeMatch text) \/ is_Some (parseBMTCDate w text) ->
                    isHHMM (Trip.time (snd p)) = true) /\
                   (timeMatch text = None -> parseBMTCDate w text = None ->
                    Trip.time (snd p) = "NaN:NaN")) made) /\
  (forall (w : World) (data : list BMTCTrip) (allowedRoutes : option JSSet.t)
          (staticTowards : option string) (r : TimetableResult.t),
     convertBMTCToTimetableFormat w data allowedRoutes staticTowards = Ok r ->
     Forall (timeReadable w)
       (filter (fun trip => surfaces w allowedRoutes trip = true) data) ->
     Forall (fun t => isHHMM (Trip.time t) = true) (TimetableResult.trips r)) /\
  (forall csvText : string,
     Trip.time <$> TimetableResult.trips (parseStaticCSV csvText) =
     (fun raw => nth 2 (parseCSVLine (JS.trim raw)) EmptyString) <$>
       filter (fun raw => JS.is_empty (JS.trim raw) = false /\
                          (4 <= length (parseCSVLine (JS.trim raw)))%nat)
         (tail (JS.split newline csvText))) /\
  (forall (w : World) (stopId : string) (status : Z) (csvText : string),
     fetch_timetable w stopId = StaticResponse true status (Some csvText) ->
     Trip.time <$> TimetableResult.trips (loadStaticTimetable w stopId) =
     (fun raw => nth 2 (parseCSVLine (JS.trim raw)) EmptyString) <$>
       filter (fun raw => JS.is_empty (JS.trim raw) = false /\
                          (4 <= length (parseCSVLine (JS.trim raw)))%nat)
         (tail (JS.split newline csvText))).
Proof.
  assert (Hstatic : forall csvText : string,
     Trip.time <$> TimetableResult.trips (parseStaticCSV csvText) =
     (fun raw => nth 2 (parseCSVLine (JS.trim raw)) EmptyString) <$>
       filter (fun raw => JS.is_empty (JS.trim raw) = false /\
                          (4 <= length (parseCSVLine (JS.trim raw)))%nat)
         (tail (JS.split newline csvText))).
  { intros csvText. unfold parseStaticCSV. cbn [TimetableResult.trips].
    rewrite static_loop_trips. simpl. apply static_times. }
  split_and!.
  - intros w data allowedRoutes staticTowards r Hr.
    destruct (convert_made _ _ _ _ _ Hr) as (made & Hfst & Hsnd & Hmade).
    exists made. split_and!; [done|done|].
    eapply Forall_impl; [exact Hmade|]. intros [trip t] [[text Htext] Ht].
    simpl in *. subst t. exists text. split_and!; [done|done| |].
    + intros Hread. apply tripOf_HHMM; [by rewrite Htext|].
      intros text' Htext'. by simplify_eq.
    + intros Hm Hd. by eapply tripOf_NaN.
  - intros w data allowedRoutes staticTowards r. apply convert_HHMM.
  - exact Hstatic.
  - intros w stopId status csvText Hfetch.
    unfold loadStaticTimetable, loadStaticTimetable_try. rewrite Hfetch. simpl.
    apply Hstatic.
Qed.

Lemma trip_time_shape_witness :
  Forall (fun t => isHHMM (Trip.time t) = true) (TimetableResult.trips Sample.live_result).
Proof.
  refine (proj1 (proj2 trip_time_shape) (Sample.world None LiveRejects) Sample.arrivals
            (Some ["500A"; "500B"]) (Some "Purple Line") Sample.live_result _ _).
  - vm_compute. reflexivity.
  - apply Forall_forall. intros trip [_ Hin]%list_elem_of_filter text Htext. left.
    unfold Sample.arrivals in Hin.
    repeat (apply elem_of_cons in Hin as [-> | Hin]);
      [..|by apply elem_of_nil in Hin]; injection Htext as <-; vm_compute; eauto.
Defined.

(** A row of the timetable file with seconds in its time column is
    served with the seconds. *)
Lemma static_time_counterexample :
  onRequest (Sample.world (Some Sample.timetable_csv) LiveRejects) Sample.request
  = timetableResponse Sample.static_result /\
  Trip.mk "500A" "06:30:00" "Purple Line" ∈ TimetableResult.trips Sample.static_result /\
  isHHMM (Trip.time (Trip.mk "500A" "06:30:00" "Purple Line")) = false.
Proof.
  split_and!; [vm_compute; reflexivity| |reflexivity].
  apply list_elem_of_here.
Qed.

(** ** Empty static timetable *)

Lemma forEach_nothing_allowed (w : World) (staticTowards : option string)
    (data : list BMTCTrip) (st : live_state) :
  forEach (live_step w (Some JSSet.empty) staticTowards) data st = Ok st.
Proof.
  induction data as [|trip data IH]; [done|]. simpl.
  unfold live_step at 1. simpl. done.
Qed.

Lemma convert_nothing_allowed (w : World) (staticTowards : option string)
    (data : list BMTCTrip) :
  exists r : TimetableResult.t,
    convertBMTCToTimetableFormat w data (Some JSSet.empty) staticTowards = Ok r
    /\ TimetableResult.trips r = [].
Proof.
  unfold convertBMTCToTimetableFormat. rewrite forEach_nothing_allowed. simpl. eauto.
Qed.

Lemma routes_exact_nil (r : TimetableResult.t) :
  routes_exact r -> TimetableResult.routes r = [] -> TimetableResult.trips r = [].
Proof.
  intros [_ Hiff] Hr. destruct (TimetableResult.trips r) as [|t ts]; [done|].
  specialize (Hiff (Trip.route_name t)). rewrite Hr in Hiff.
  destruct (not_elem_of_nil (Trip.route_name t)). apply Hiff. simpl. apply list_elem_of_here.
Qed.

(** C10. When the static timetable of the stop has no routes, the
    allow-list of the live adapter is the empty set, under which the
    adapter returns no trip whatever the feed holds; the static timetable
    has no trips either, and the handler answers with it. *)
Theorem empty_static_blocks_live (w : World) (request : Request) (stopId : string) :
  method request = "GET" -> stopid request = Some stopId -> stopId <> EmptyString ->
  TimetableResult.routes (loadStaticTimetable w stopId) = [] ->
  JSSet.of_array (TimetableResult.routes (loadStaticTimetable w stopId)) = JSSet.empty /\
  (forall (data : list BMTCTrip) (staticTowards : option string),
     exists r : TimetableResult.t,
       convertBMTCToTimetableFormat w data (Some JSSet.empty) staticTowards = Ok r
       /\ TimetableResult.trips r = []) /\
  (forall live : TimetableResult.t,
     liveAttempt w stopId (loadStaticTimetable w stopId) = Ok (Some live) ->
     TimetableResult.trips live = []) /\
  TimetableResult.trips (loadStaticTimetable w stopId) = [] /\
  onRequest w request = timetableResponse (loadStaticTimetable w stopId).
Proof.
  intros Hm Hs Hne Hroutes.
  assert (Hlive : forall live : TimetableResult.t,
     liveAttempt w stopId (loadStaticTimetable w stopId) = Ok (Some live) ->
     TimetableResult.trips live = []).
  { intros live [records Hr]%liveAttempt_Ok_Some. rewrite Hroutes in Hr.
    destruct (convert_nothing_allowed w
                (Some (TimetableResult.towards (loadStaticTimetable w stopId))) records)
      as (r & Hr' & Hnil).
    change (JSSet.of_array []) with JSSet.empty in Hr. congruence. }
  split_and!.
  - by rewrite Hroutes.
  - intros data staticTowards. apply convert_nothing_allowed.
  - exact Hlive.
  - apply routes_exact_nil; [apply loadStaticTimetable_routes|done].
  - rewrite (onRequest_GET w request stopId Hm Hs Hne). cbv zeta.
    destruct (liveAttempt w stopId (loadStaticTimetable w stopId)) as [[live|]|e] eqn:Hl;
      simpl; try done.
    by rewrite (Hlive live eq_refl).
Qed.

Lemma empty_static_blocks_live_witness :
  onRequest (Sample.world None Sample.live_ok) Sample.request
  = timetableResponse (loadStaticTimetable (Sample.world None Sample.live_ok) "20568").
Proof.
  refine (proj2 (proj2 (proj2 (proj2 (empty_static_blocks_live
            (Sample.world None Sample.live_ok) Sample.request "20568" _ _ _ _))))).
  - reflexivity.
  - reflexivity.
  - discriminate.
  - reflexivity.
Defined.

(** * Further properties of the handler *)

(** ** Answers that need no upstream *)

Lemma onRequest_rejected (w : World) (request : Request) :
  (method request = "OPTIONS" -> onRequest w request = handleCORS) /\
  (method request <> "OPTIONS" -> method request <> "GET" ->
   onRequest w request = methodNotAllowed) /\
  (method request = "GET" -> JS.falsy (stopid request) = true ->
   onRequest w request = stopidRequired).
Proof.
  unfold onRequest. split_and!.
  - by intros ->.
  - intros Ho Hg.
    destruct (String.eqb_spec (method request) "OPTIONS"); [done|].
    destruct (String.eqb_spec (method request) "GET"); done.
  - intros -> Hs. simpl. unfold onRequest_try.
    destruct (stopid request) as [[|c s]|]; done.
Qed.

(** The handler answers 200 exactly to a GET request with a stop id.
    An OPTIONS request gets 204 without a body, a request of any other
    method than GET gets 405 with the text Method not allowed, and a GET
    request without a stop id gets 400 with the error stopid parameter
    is required. These three answers are the same in every world: no
    upstream is consulted. *)
Theorem onRequest_status (w : World) (request : Request) :
  (status (onRequest w request) = 200 <->
   method request = "GET" /\ JS.falsy (stopid request) = false) /\
  (method request = "OPTIONS" ->
   status (onRequest w request) = 204 /\ body (onRequest w request) = NoBody) /\
  (method request <> "OPTIONS" -> method request <> "GET" ->
   status (onRequest w request) = 405 /\
   body (onRequest w request) = TextBody "Method not allowed") /\
  (method request = "GET" -> JS.falsy (stopid request) = true ->
   status (onRequest w request) = 400 /\
   body (onRequest w request) = ErrorBody "stopid parameter is required" None) /\
  (forall w' : World,
     method request <> "GET" \/ JS.falsy (stopid request) = true ->
     onRequest w' request = onRequest w request).
Proof.
  destruct (onRequest_rejected w request) as (Ho & Hm & Hs).
  split_and!.
  - split.
    + intros H200.
      destruct (String.eqb_spec (method request) "OPTIONS") as [Heq|Hno].
      { rewrite (Ho Heq) in H200. discriminate. }
      destruct (String.eqb_spec (method request) "GET") as [Heq|Hng].
      2: { rewrite (Hm Hno Hng) in H200. discriminate. }
      split; [done|]. destruct (JS.falsy (stopid request)) eqn:Hf; [|done].
      rewrite (Hs Heq eq_refl) in H200. discriminate.
    + intros [Hg Hf]. destruct (stopid request) as [stopId|] eqn:Hid; [|done].
      destruct stopId as [|c stopId]; [done|].
      rewrite (onRequest_GET w request (String c stopId)) by done. cbv zeta.
      destruct (try_catch _ _) as [live|]; [|done].
      by destruct (0 <? length (TimetableResult.trips live))%nat.
  - intros Heq. by rewrite (Ho Heq).
  - intros Hno Hng. by rewrite (Hm Hno Hng).
  - intros Heq Hf. by rewrite (Hs Heq Hf).
  - intros w' Hrej.
    destruct (onRequest_rejected w' request) as (Ho' & Hm' & Hs').
    destruct (String.eqb_spec (method request) "OPTIONS") as [Heq|Hno].
    { by rewrite (Ho Heq), (Ho' Heq). }
    destruct (String.eqb_spec (method request) "GET") as [Heq|Hng].
    2: { by rewrite (Hm Hno Hng), (Hm' Hno Hng). }
    destruct Hrej as [?|Hf]; [done|].
    by rewrite (Hs Heq Hf), (Hs' Heq Hf).
Qed.

Lemma onRequest_status_witness :
  status (onRequest (Sample.world (Some Sample.timetable_csv) Sample.live_ok)
            {| method := "DELETE"; stopid := Some "20568" |}) = 405 /\
  body (onRequest (Sample.world (Some Sample.timetable_csv) Sample.live_ok)
          {| method := "DELETE"; stopid := Some "20568" |})
  = TextBody "Method not allowed".
Proof.
  refine (proj1 (proj2 (proj2 (onRequest_status
            (Sample.world (Some Sample.timetable_csv) Sample.live_ok)
            {| method := "DELETE"; stopid := Some "20568" |}))) _ _); discriminate.
Defined.

(** Every answer of the handler, whatever the request and the world,
    carries the three CORS headers; an answer with a timetable also
    carries the headers that forbid caching. *)
Theorem onRequest_headers (w : World) (request : Request) :
  (forall h : string * string, h ∈ getCORSHeaders -> h ∈ headers (onRequest w request)) /\
  (forall r : TimetableResult.t,
     body (onRequest w request) = TimetableBody r ->
     ("Cache-Control", "no-cache, no-store, must-revalidate") ∈ headers (onRequest w request)
     /\ ("Pragma", "no-cache") ∈ headers (onRequest w request)
     /\ ("Expires", "0") ∈ headers (onRequest w request)).
Proof.
  assert (Hcases : onRequest w request = handleCORS \/
                   onRequest w request = methodNotAllowed \/
                   onRequest w request = stopidRequired \/
                   exists r, onRequest w request = timetableResponse r).
  { destruct (onRequest_rejected w request) as (Ho & Hm & Hs).
    destruct (String.eqb_spec (method request) "OPTIONS") as [Heq|Hno]; [by left; apply Ho|].
    destruct (String.eqb_spec (method request) "GET") as [Heq|Hng];
      [|by right; left; apply Hm].
    destruct (JS.falsy (stopid request)) eqn:Hf; [by right; right; left; apply Hs|].
    right. right. right.
    destruct (stopid request) as [stopId|] eqn:Hid; [|done].
    destruct stopId as [|c stopId]; [done|].
    rewrite (onRequest_GET w request (String c stopId)) by done. cbv zeta.
    destruct (try_catch _ _) as [live|]; [|eauto].
    destruct (0 <? length (TimetableResult.trips live))%nat; eauto. }
  split.
  - intros h Hh.
    destruct Hcases as [-> | [-> | [-> | [r ->]]]]; simpl; try done.
    + unfold jsonHeaders. by apply list_elem_of_further.
    + unfold noCacheHeaders. apply elem_of_app. by right.
  - intros r Hbody.
    destruct Hcases as [Hc | [Hc | [Hc | [r' Hc]]]]; rewrite Hc in *; try discriminate.
    simpl. unfold noCacheHeaders. rewrite !elem_of_app, !elem_of_cons. tauto.
Qed.

Lemma onRequest_headers_witness :
  ("Pragma", "no-cache") ∈
    headers (onRequest (Sample.world (Some Sample.timetable_csv) Sample.live_ok) Sample.request).
Proof.
  refine (proj1 (proj2 (proj2 (onRequest_headers
            (Sample.world (Some Sample.timetable_csv) Sample.live_ok) Sample.request)
            Sample.live_result _))).
  vm_compute. reflexivity.
Defined.

(** ** Direction of a timetable *)

Lemma mapDestinationToLine_range (destination : option string) :
  isLineId (mapDestinationToLine destination).
Proof.
  unfold mapDestinationToLine, isLineId. destruct destination as [d|]; [|tauto].
  destruct (JS.is_empty d); [tauto|].
  destruct (_ || _); [tauto|]. destruct (_ || _); tauto.
Qed.

Lemma isLineId_not_empty (s : string) : isLineId s -> JS.is_empty s = false.
Proof. by intros [-> | [-> | ->]]. Qed.

Lemma finalTowards_of_lineId (s : string) : isLineId s -> finalTowards_of (Some s) = s.
Proof. by intros [-> | [-> | ->]]. Qed.

Lemma rowTrip_towards (raw : string) (t : Trip.t) :
  rowTrip raw = Some t -> isLineId (Trip.towards t).
Proof.
  unfold rowTrip. destruct (JS.is_empty (JS.trim raw)); [discriminate|].
  destruct (4 <=? length (parseCSVLine (JS.trim raw)))%nat; [|discriminate].
  intros [= <-].
  exact (mapDestinationToLine_range (Some (nth 3 (parseCSVLine (JS.trim raw)) EmptyString))).
Qed.

Lemma static_loop_towards (lines : list string) (st : static_state) :
  st_towards (fold_left static_step lines st) =
  if JS.falsy (st_towards st) then
    match omap rowTrip lines with
    | [] => st_towards st
    | t :: _ => Some (Trip.towards t)
    end
  else st_towards st.
Proof.
  revert st. induction lines as [|raw lines IH]; intros st.
  - simpl. by destruct (JS.falsy (st_towards st)).
  - cbn [fold_left]. rewrite IH, static_step_rowTrip.
    change (omap rowTrip (raw :: lines))
      with (match rowTrip raw with
            | Some y => y :: omap rowTrip lines
            | None => omap rowTrip lines
            end).
    destruct (rowTrip raw) as [t|] eqn:Hrow; [|reflexivity].
    cbn [st_towards].
    destruct (JS.falsy (st_towards st)) eqn:Hf; [|by rewrite Hf].
    cbn [JS.falsy]. by rewrite (isLineId_not_empty _ (rowTrip_towards _ _ Hrow)).
Qed.

Lemma parseStaticCSV_towards (csvText : string) :
  TimetableResult.towards (parseStaticCSV csvText)
  = firstLine Trip.towards (omap rowTrip (tail (JS.split newline csvText))).
Proof.
  unfold parseStaticCSV. cbn [TimetableResult.towards].
  rewrite static_loop_towards. simpl.
  destruct (omap rowTrip _) as [|t ts] eqn:Hrows; [done|]. simpl.
  apply finalTowards_of_lineId.
  assert (Hin : t ∈ omap rowTrip (tail (JS.split newline csvText)))
    by (rewrite Hrows; apply list_elem_of_here).
  apply list_elem_of_omap in Hin as (raw & _ & Hrow). by eapply rowTrip_towards.
Qed.

Lemma parseStaticCSV_lineIds (csvText : string) :
  isLineId (TimetableResult.towards (parseStaticCSV csvText)) /\
  forall t : Trip.t,
    t ∈ TimetableResult.trips (parseStaticCSV csvText) -> isLineId (Trip.towards t).
Proof.
  split.
  - rewrite parseStaticCSV_towards.
    destruct (omap rowTrip _) as [|t ts] eqn:Hrows; simpl; [unfold isLineId; tauto|].
    assert (Hin : t ∈ omap rowTrip (tail (JS.split newline csvText)))
      by (rewrite Hrows; apply list_elem_of_here).
    apply list_elem_of_omap in Hin as (raw & _ & Hrow). by eapply rowTrip_towards.
  - intros t Ht. unfold parseStaticCSV in Ht. cbn [TimetableResult.trips] in Ht.
    rewrite static_loop_trips in Ht. simpl in Ht.
    apply list_elem_of_omap in Ht as (raw & _ & Hrow). by eapply rowTrip_towards.
Qed.

Lemma loadStaticTimetable_lineIds (w : World) (stopId : string) :
  isLineId (TimetableResult.towards (loadStaticTimetable w stopId)) /\
  forall t : Trip.t,
    t ∈ TimetableResult.trips (loadStaticTimetable w stopId) -> isLineId (Trip.towards t).
Proof.
  unfold loadStaticTimetable, loadStaticTimetable_try.
  destruct (fetch_timetable w stopId) as [|ok status [csvText|]];
    try destruct ok; simpl; try apply parseStaticCSV_lineIds;
    (split; [unfold isLineId; tauto|]); intros t Ht; by apply elem_of_nil in Ht.
Qed.

(** The direction of a static timetable is the line of the first row
    that stands for a trip, whatever the later rows say, and "Unknown"
    when no row does. *)
Theorem static_towards_first_row (csvText : string) :
  TimetableResult.towards (parseStaticCSV csvText)
  = firstLine Trip.towards (TimetableResult.trips (parseStaticCSV csvText)) /\
  forall (header first rest : string) (t : Trip.t),
    hasChar newline header = false -> hasChar newline first = false ->
    rowTrip first = Some t ->
    TimetableResult.towards
      (parseStaticCSV (header ++ String newline (first ++ String newline rest)))
    = Trip.towards t.
Proof.
  split.
  - rewrite parseStaticCSV_towards. unfold parseStaticCSV.
    cbn [TimetableResult.trips]. by rewrite static_loop_trips.
  - intros header first rest t Hh Hf Hrow. rewrite parseStaticCSV_towards.
    fold newline. rewrite !split_no_separator by done. simpl. by rewrite Hrow.
Qed.

Lemma static_towards_first_row_witness :
  TimetableResult.towards
    (parseStaticCSV ("stop,route,time,towards" ++ String newline
       ("1,500A,06:30,Silk Board" ++ String newline "1,500B,06:40,KR Pura")))
  = "Yellow Line".
Proof.
  refine (proj2 (static_towards_first_row EmptyString)
            "stop,route,time,towards" "1,500A,06:30,Silk Board" "1,500B,06:40,KR Pura"
            (Trip.mk "500A" "06:30" "Yellow Line") _ _ _); reflexivity.
Defined.

Lemma or_else_not_empty (a : option string) (b : string) :
  JS.is_empty b = false -> JS.is_empty (or_else a b) = false.
Proof.
  intros Hb. unfold or_else. destruct a as [x|]; [|done].
  by destruct (JS.is_empty x) eqn:Hx.
Qed.

Lemma tripOf_towards_not_empty (w : World) (staticTowards : option string) (trip : BMTCTrip) :
  JS.is_empty (Trip.towards (tripOf w staticTowards trip)) = false.
Proof.
  apply or_else_not_empty, isLineId_not_empty, mapDestinationToLine_range.
Qed.

Lemma forEach_live_towards (w : World) (allowedRoutes : option JSSet.t)
    (staticTowards : option string) (data : list BMTCTrip) (st st' : live_state) :
  forEach (live_step w allowedRoutes staticTowards) data st = Ok st' ->
  lv_towards st' =
  if JS.falsy (lv_towards st) then
    match filter (fun trip => surfaces w allowedRoutes trip = true) data with
    | [] => lv_towards st
    | trip :: _ => Some (Trip.towards (tripOf w staticTowards trip))
    end
  else lv_towards st.
Proof.
  revert st. induction data as [|trip data IH]; intros st.
  - simpl. intros [= <-]. by destruct (JS.falsy (lv_towards st)).
  - cbn [forEach].
    destruct (live_step w allowedRoutes staticTowards st trip) as [st1|e] eqn:Hstep;
      simpl; [|discriminate].
    intros Hrest. rewrite (IH _ Hrest). apply live_step_Ok in Hstep as ->.
    rewrite filter_cons. destruct (surfaces w allowedRoutes trip) eqn:Hs.
    + rewrite decide_True by done. unfold pushed. cbn [lv_towards].
      destruct (JS.falsy (lv_towards st)) eqn:Hf; [|by rewrite Hf].
      cbn [JS.falsy]. by rewrite tripOf_towards_not_empty.
    + by rewrite decide_False by done.
Qed.

Lemma convert_direction_static (w : World) (data : list BMTCTrip)
    (allowedRoutes : option JSSet.t) (staticTowards : string) (r : TimetableResult.t) :
  JS.is_empty staticTowards = false ->
  convertBMTCToTimetableFormat w data allowedRoutes (Some staticTowards) = Ok r ->
  TimetableResult.towards r = staticTowards /\
  forall t : Trip.t, t ∈ TimetableResult.trips r -> Trip.towards t = staticTowards.
Proof.
  intros Hne Hr. split.
  - destruct (convert_Ok _ _ _ _ _ Hr) as (st' & _ & ->). simpl. by rewrite Hne.
  - intros t Ht. rewrite (convert_trips _ _ _ _ _ Hr), sort_perm in Ht.
    apply list_elem_of_fmap in Ht as (trip & -> & _). simpl. by rewrite Hne.
Qed.

Lemma liveAttempt_direction (w : World) (stopId : string) (live : TimetableResult.t) :
  liveAttempt w stopId (loadStaticTimetable w stopId) = Ok (Some live) ->
  TimetableResult.towards live = TimetableResult.towards (loadStaticTimetable w stopId) /\
  forall t : Trip.t,
    t ∈ TimetableResult.trips live ->
    Trip.towards t = TimetableResult.towards (loadStaticTimetable w stopId).
Proof.
  intros [records Hr]%liveAttempt_Ok_Some.
  eapply convert_direction_static; [|exact Hr].
  apply isLineId_not_empty, loadStaticTimetable_lineIds.
Qed.

(** With the direction of the static timetable at hand, the adapter
    gives it to its result and to every trip, whatever destinations the
    feed names; in the handler the live result so always has the
    direction of the static timetable. *)
Theorem live_direction_static :
  (forall (w : World) (data : list BMTCTrip) (allowedRoutes : option JSSet.t)
          (staticTowards : string) (r : TimetableResult.t),
     JS.is_empty staticTowards = false ->
     convertBMTCToTimetableFormat w data allowedRoutes (Some staticTowards) = Ok r ->
     TimetableResult.towards r = staticTowards /\
     forall t : Trip.t, t ∈ TimetableResult.trips r -> Trip.towards t = staticTowards) /\
  (forall (w : World) (stopId : string) (live : TimetableResult.t),
     liveAttempt w stopId (loadStaticTimetable w stopId) = Ok (Some live) ->
     TimetableResult.towards live = TimetableResult.towards (loadStaticTimetable w stopId) /\
     forall t : Trip.t,
       t ∈ TimetableResult.trips live ->
       Trip.towards t = TimetableResult.towards (loadStaticTimetable w stopId)).
Proof.
  split.
  - apply convert_direction_static.
  - apply liveAttempt_direction.
Qed.

Lemma live_direction_static_witness :
  TimetableResult.towards Sample.live_result = "Purple Line" /\
  forall t : Trip.t,
    t ∈ TimetableResult.trips Sample.live_result -> Trip.towards t = "Purple Line".
Proof.
  refine (proj1 live_direction_static (Sample.world None LiveRejects) Sample.arrivals
            (Some ["500A"; "500B"]) "Purple Line" Sample.live_result _ _).
  - reflexivity.
  - vm_compute. reflexivity.
Defined.

(** Without a direction from the static timetable, the adapter takes
    the direction of its result from the first record of the feed that
    passes the allow-list and the window, in the order of the feed and
    not of the sorted trips; it is "Unknown" when no record passes. *)
Theorem live_direction_first_record (w : World) (data : list BMTCTrip)
    (allowedRoutes : option JSSet.t) (staticTowards : option string)
    (r : TimetableResult.t) :
  JS.falsy staticTowards = true ->
  convertBMTCToTimetableFormat w data allowedRoutes staticTowards = Ok r ->
  TimetableResult.towards r =
  firstLine (fun trip => mapDestinationToLine (tostationname trip))
    (filter (fun trip => surfaces w allowedRoutes trip = true) data).
Proof.
  intros Hf Hr. destruct (convert_Ok _ _ _ _ _ Hr) as (st' & Hloop & ->).
  cbn [TimetableResult.towards]. rewrite (forEach_live_towards _ _ _ _ _ _ Hloop).
  assert (Hor : forall b, or_else staticTowards b = b).
  { intros b. unfold or_else. destruct staticTowards as [x|]; [|done].
    simpl in Hf. by rewrite Hf. }
  rewrite Hor. unfold live_init. cbn [lv_towards]. rewrite Hf. cbn [JS.falsy].
  destruct (filter _ data) as [|trip rest]; [done|]. simpl.
  rewrite Hor. apply finalTowards_of_lineId, mapDestinationToLine_range.
Qed.

Lemma live_direction_first_record_witness :
  TimetableResult.towards
    (TimetableResult.mk
       [Trip.mk "500A" "14:30" "Purple Line"; Trip.mk "500B" "14:50" "Yellow Line"]
       ["500B"; "500A"] "Yellow Line")
  = firstLine (fun trip => mapDestinationToLine (tostationname trip))
      (filter (fun trip => surfaces (Sample.world None LiveRejects) None trip = true)
         [Sample.arrival "500B" "Silk Board" "31-10-2025 14:50:00";
          Sample.arrival "500A" "KR Pura" "31-10-2025 14:30:00"]).
Proof.
  refine (live_direction_first_record (Sample.world None LiveRejects)
            [Sample.arrival "500B" "Silk Board" "31-10-2025 14:50:00";
             Sample.arrival "500A" "KR Pura" "31-10-2025 14:30:00"]
            None None _ _ _).
  - reflexivity.
  - vm_compute. reflexivity.
Defined.

(** Every timetable the handler serves names one of the three lines as
    its direction and as the direction of each of its trips. *)
Theorem served_lineIds (w : World) (request : Request) (r : TimetableResult.t) :
  body (onRequest w request) = TimetableBody r ->
  isLineId (TimetableResult.towards r) /\
  forall t : Trip.t, t ∈ TimetableResult.trips r -> isLineId (Trip.towards t).
Proof.
  intros (stopId & _ & _ & _ & Hr)%onRequest_timetable.
  destruct Hr as [-> | [Hr _]]; [apply loadStaticTimetable_lineIds|].
  destruct (liveAttempt_direction w stopId r Hr) as [Ht Hts].
  destruct (loadStaticTimetable_lineIds w stopId) as [Hid _].
  split; [by rewrite Ht|]. intros t Hin. by rewrite (Hts t Hin).
Qed.

Lemma served_lineIds_witness :
  isLineId (TimetableResult.towards Sample.live_result) /\
  forall t : Trip.t,
    t ∈ TimetableResult.trips Sample.live_result -> isLineId (Trip.towards t).
Proof.
  refine (served_lineIds (Sample.world (Some Sample.timetable_csv) Sample.live_ok)
            Sample.request Sample.live_result _).
  vm_compute. reflexivity.
Defined.

(** ** When the live feed cannot be used *)

Lemma convert_throws_iff (w : World) (data : list BMTCTrip)
    (allowedRoutes : option JSSet.t) (staticTowards : option string) :
  (exists e : string,
     convertBMTCToTimetableFormat w data allowedRoutes staticTowards = Throw e) <->
  Exists (fun trip => notAllowed allowedRoutes (routeno trip) = false /\
                      arrivaltime trip = None) data.
Proof.
  split.
  - intros [e He].
    destruct (decide (Exists (fun trip => notAllowed allowedRoutes (routeno trip) = false /\
                                          arrivaltime trip = None) data)) as [|Hno]; [done|].
    apply not_Exists_Forall in Hno; [|intros trip; apply _].
    destruct (convert_total w allowedRoutes staticTowards data) as [r Hr]; [|congruence].
    eapply Forall_impl; [exact Hno|]. intros trip Hn Ha. simpl in Hn.
    destruct (arrivaltime trip); [eauto|]. destruct Hn. done.
  - intros Hex.
    destruct (convertBMTCToTimetableFormat w data allowedRoutes staticTowards)
      as [r|e] eqn:Hr; [|eauto].
    destruct (convert_Ok _ _ _ _ _ Hr) as (st' & Hloop & _).
    pose proof (forEach_live_Ok_inv _ _ _ _ _ _ Hloop) as Hsome.
    apply Exists_exists in Hex as (trip & Hin & Ha & Hnone).
    rewrite Forall_forall in Hsome. destruct (Hsome trip Hin Ha) as [text Htext].
    congruence.
Qed.

(** On a feed whose entries are objects with a string [routeno] and a
    [tostationname] that is a string or missing, the adapter throws
    exactly when some record passes the allow-list and has no arrival
    time that is a string, wherever it stands in the feed and whatever
    the other records hold; otherwise it returns a result. *)
Theorem adapter_throws_iff (w : World) (data : list BMTCTrip)
    (allowedRoutes : option JSSet.t) (staticTowards : option string) :
  ((exists e : string,
      convertBMTCToTimetableFormat w data allowedRoutes staticTowards = Throw e) <->
   Exists (fun trip => notAllowed allowedRoutes (routeno trip) = false /\
                       arrivaltime trip = None) data) /\
  ((exists r : TimetableResult.t,
      convertBMTCToTimetableFormat w data allowedRoutes staticTowards = Ok r) <->
   Forall (fun trip => notAllowed allowedRoutes (routeno trip) = false ->
                       is_Some (arrivaltime trip)) data).
Proof.
  split; [apply convert_throws_iff|]. split.
  - intros [r Hr]. destruct (convert_Ok _ _ _ _ _ Hr) as (st' & Hloop & _).
    by eapply forEach_live_Ok_inv.
  - apply convert_total.
Qed.

Lemma adapter_throws_iff_witness :
  exists e : string,
    convertBMTCToTimetableFormat (Sample.world None LiveRejects)
      (Sample.arrivals ++
         [{| routeno := "500A"; tostationname := None; arrivaltime := None |}])%list
      (Some ["500A"; "500B"]) (Some "Purple Line") = Throw e.
Proof.
  refine (proj2 (proj1 (adapter_throws_iff (Sample.world None LiveRejects)
            (Sample.arrivals ++
               [{| routeno := "500A"; tostationname := None; arrivaltime := None |}])%list
            (Some ["500A"; "500B"]) (Some "Purple Line"))) _).
  apply Exists_app. right. apply Exists_cons_hd. split; reflexivity.
Defined.

(** For a GET request with a stop id the handler serves the static
    timetable, and no error, when the live feed answers with a status
    that is not OK, or reports no success, or has no arrivals, and also
    when one arrival of a route of the static timetable has no arrival
    time: that one record discards the whole feed. *)
Theorem live_unusable_serves_static (w : World) (request : Request) (stopId : string) :
  method request = "GET" -> stopid request = Some stopId -> stopId <> EmptyString ->
  (exists json : option BMTCResult, fetch_live w stopId = LiveResponse false json) \/
  (exists result : BMTCResult,
     fetch_live w stopId = LiveResponse true (Some result) /\
     (Issuccess result = false \/ data result = None \/ data result = Some [])) \/
  (exists (result : BMTCResult) (records : list BMTCTrip),
     fetch_live w stopId = LiveResponse true (Some result) /\
     data result = Some records /\
     Exists (fun trip =>
               routeno trip ∈ TimetableResult.routes (loadStaticTimetable w stopId) /\
               arrivaltime trip = None) records) ->
  onRequest w request = timetableResponse (loadStaticTimetable w stopId).
Proof.
  intros Hm Hs Hne Hcase. rewrite (onRequest_GET w request stopId Hm Hs Hne). cbv zeta.
  assert (Hlive : try_catch (liveAttempt w stopId (loadStaticTimetable w stopId))
                    (fun _ => None) = None); [|by rewrite Hlive].
  unfold liveAttempt.
  destruct Hcase as [[json ->] | [(result & -> & Hres) | (result & records & -> & Hd & Hex)]].
  - done.
  - destruct (Issuccess result); [|done].
    destruct Hres as [? | [-> | ->]]; done.
  - rewrite Hd. destruct (Issuccess result); [|done].
    destruct records as [|trip records]; [done|].
    destruct (proj2 (convert_throws_iff w (trip :: records)
                (Some (JSSet.of_array (TimetableResult.routes (loadStaticTimetable w stopId))))
                (Some (TimetableResult.towards (loadStaticTimetable w stopId))))) as [e ->].
    + eapply Exists_impl; [exact Hex|]. intros x [Hin Hnone]. split; [|done].
      unfold notAllowed. apply negb_false_iff, JSSet_has_true, JSSet_elem_of_of_array. done.
    + done.
Qed.

Lemma live_unusable_serves_static_witness :
  onRequest
    (Sample.world (Some Sample.timetable_csv)
       (LiveResponse true (Some {| Issuccess := true;
          data := Some (Sample.arrivals ++
            [{| routeno := "500A"; tostationname := None; arrivaltime := None |}])%list |})))
    Sample.request
  = timetableResponse Sample.static_result.
Proof.
  refine (live_unusable_serves_static
            (Sample.world (Some Sample.timetable_csv)
               (LiveResponse true (Some {| Issuccess := true;
                  data := Some (Sample.arrivals ++
                    [{| routeno := "500A"; tostationname := None; arrivaltime := None |}])%list |})))
            Sample.request "20568" _ _ _ _).
  - reflexivity.
  - reflexivity.
  - discriminate.
  - right. right. eexists _, _. split_and!; [reflexivity|reflexivity|].
    apply Exists_app. right. apply Exists_cons_hd. split; [|reflexivity].
    vm_compute. apply list_elem_of_here.
Defined.

(** ** Sorting by a key *)

Section KeyOrderFacts.

Context {A : Type} (key : A -> option Z).

#[local] Instance key_le_transitive : Transitive (key_le key).
Proof.
  intros a b c. unfold key_le.
  destruct (key a), (key b), (key c); try done. lia.
Qed.

Lemma insert_key_filter (k : Z) (x : A) (l : list A) :
  filter (fun a => key a = Some k) (JS.insert (keyCompare key) x l)
  = filter (fun a => key a = Some k) (x :: l).
Proof.
  induction l as [|y l IH]; [done|]. cbn [JS.insert].
  destruct (JS.gt (keyCompare key x y) (Some 0)) eqn:Hgt; [|done].
  rewrite filter_cons, IH, !filter_cons.
  unfold keyCompare in Hgt.
  destruct (key x) as [kx|] eqn:Hx, (key y) as [ky|] eqn:Hy; try discriminate.
  simpl in Hgt. apply Z.ltb_lt in Hgt.
  repeat case_decide; simplify_eq; try done; lia.
Qed.

(** Elements with the same key keep their order. *)
Lemma sort_key_stable (k : Z) (l : list A) :
  filter (fun a => key a = Some k) (JS.sort (keyCompare key) l)
  = filter (fun a => key a = Some k) l.
Proof.
  induction l as [|x l IH]; [done|]. unfold JS.sort in *. cbn [foldr].
  by rewrite insert_key_filter, !filter_cons, IH.
Qed.

Lemma insert_key_HdRel (x y : A) (l : list A) :
  HdRel (key_le key) y l -> key_le key y x ->
  HdRel (key_le key) y (JS.insert (keyCompare key) x l).
Proof.
  intros Hl Hyx. destruct l as [|z l]; simpl; [by constructor|].
  destruct (JS.gt (keyCompare key x z) (Some 0)); constructor; [|done].
  by apply HdRel_inv in Hl.
Qed.

Lemma insert_key_sorted (x : A) (l : list A) :
  is_Some (key x) -> Forall (fun a => is_Some (key a)) l ->
  Sorted (key_le key) l -> Sorted (key_le key) (JS.insert (keyCompare key) x l).
Proof.
  intros [kx Hx] Hall Hs. induction l as [|y l IH]; simpl.
  - repeat constructor.
  - apply Forall_cons in Hall as [[ky Hy] Hall].
    apply Sorted_inv in Hs as [Hs Hhd].
    unfold keyCompare at 1. rewrite Hx, Hy. simpl.
    destruct (Z.ltb_spec 0 (kx - ky)).
    + constructor; [by apply IH|]. apply insert_key_HdRel; [done|].
      unfold key_le. rewrite Hx, Hy. lia.
    + constructor; [by constructor|]. constructor.
      unfold key_le. rewrite Hx, Hy. lia.
Qed.

Lemma sort_key_sorted (l : list A) :
  Forall (fun a => is_Some (key a)) l ->
  StronglySorted (key_le key) (JS.sort (keyCompare key) l).
Proof.
  intros Hall. apply Sorted_StronglySorted; [apply _|].
  induction l as [|x l IH]; [constructor|].
  apply Forall_cons in Hall as [Hx Hall]. unfold JS.sort in *. cbn [foldr].
  apply insert_key_sorted; [done| |by apply IH].
  change (Forall (fun a => is_Some (key a)) (JS.sort (keyCompare key) l)).
  by rewrite sort_perm.
Qed.

End KeyOrderFacts.

(** In a result of the live adapter whose trips all have a time of the
    shape HH:MM, trips that have the same clock time stand in the order
    their records have in the feed: the sort is stable. *)
Theorem live_sort_stable (w : World) (data : list BMTCTrip)
    (allowedRoutes : option JSSet.t) (staticTowards : option string)
    (r : TimetableResult.t) (k : Z) :
  convertBMTCToTimetableFormat w data allowedRoutes staticTowards = Ok r ->
  Forall (fun t => isHHMM (Trip.time t) = true) (TimetableResult.trips r) ->
  sorted_by_time (TimetableResult.trips r) /\
  filter (fun t => timeKey t = Some k) (TimetableResult.trips r)
  = filter (fun t => timeKey t = Some k)
      (tripOf w staticTowards <$>
         filter (fun trip => surfaces w allowedRoutes trip = true) data).
Proof.
  intros Hr Hshape. rewrite (convert_trips _ _ _ _ _ Hr) in *. split.
  - apply sort_sorted. rewrite sort_perm in Hshape.
    eapply Forall_impl; [exact Hshape|]. intros t. apply timeKey_HHMM.
  - apply (sort_key_stable timeKey).
Qed.

Lemma live_sort_stable_witness :
  filter (fun t => timeKey t = Some 870)
    [Trip.mk "500A" "14:30" "Purple Line"; Trip.mk "500B" "14:30" "Purple Line";
     Trip.mk "500A" "14:50" "Purple Line"]
  = filter (fun t => timeKey t = Some 870)
      (tripOf (Sample.world None LiveRejects) (Some "Purple Line") <$>
         filter (fun trip => surfaces (Sample.world None LiveRejects) None trip = true)
           [Sample.arrival "500A" "KR Pura" "31-10-2025 14:50:00";
            Sample.arrival "500A" "KR Pura" "31-10-2025 14:30:00";
            Sample.arrival "500B" "KR Pura" "31-10-2025 14:30:00"]).
Proof.
  refine (proj2 (live_sort_stable (Sample.world None LiveRejects)
            [Sample.arrival "500A" "KR Pura" "31-10-2025 14:50:00";
             Sample.arrival "500A" "KR Pura" "31-10-2025 14:30:00";
             Sample.arrival "500B" "KR Pura" "31-10-2025 14:30:00"]
            None (Some "Purple Line")
            (TimetableResult.mk
               [Trip.mk "500A" "14:30" "Purple Line"; Trip.mk "500B" "14:30" "Purple Line";
                Trip.mk "500A" "14:50" "Purple Line"]
               ["500A"; "500B"] "Purple Line") 870 _ _)).
  - vm_compute. reflexivity.
  - repeat constructor.
Defined.

(** ** The next trips on the page *)

Lemma getNextTrips_eq (nowHours nowMinutes : Z) (trips : list Trip.t) (maxTrips : nat) :
  getNextTrips nowHours nowMinutes trips maxTrips =
  take maxTrips
    (JS.sort (keyCompare NextTrip.minutes)
       (filter (fun trip => JS.ge (NextTrip.minutes trip) (Some 0) = true)
          (nextTripOf (nowHours * 60 + nowMinutes) <$> trips))).
Proof. destruct trips; [by destruct maxTrips|done]. Qed.

Lemma upcoming_minutes (nt : NextTrip.t) :
  JS.ge (NextTrip.minutes nt) (Some 0) = true ->
  exists d : Z, NextTrip.minutes nt = Some d /\ 0 <= d.
Proof.
  destruct (NextTrip.minutes nt) as [d|]; [|done]. simpl.
  intros Hd%Z.leb_le. eauto.
Qed.

Lemma StronglySorted_take_drop {A : Type} (R : relation A) (l : list A) (n : nat) :
  StronglySorted R l ->
  StronglySorted R (take n l) /\
  forall a b : A, a ∈ take n l -> b ∈ drop n l -> R a b.
Proof.
  intros Hs. rewrite <- (take_drop n l) in Hs.
  apply StronglySorted_app in Hs as (Hab & Ht & _). split; [done|].
  intros a b Ha Hb. by apply Hab.
Qed.

Lemma timeKey_HHMMSS (t : Trip.t) : isHHMMSS (Trip.time t) = true -> is_Some (timeKey t).
Proof.
  unfold timeKey. destruct (Trip.time t) as [|h1 [|h2 [|c1 [|m1 [|m2 [|c2 [|s1 [|s2 [|? ?]]]]]]]]];
    try discriminate.
  cbn [isHHMMSS]. rewrite !andb_true_iff.
  intros [[[[[[[H1 H2] Hc1] H3] H4] Hc2] H5] H6].
  apply Ascii.eqb_eq in Hc1 as ->. apply Ascii.eqb_eq in Hc2 as ->.
  cbn [JS.split].
  rewrite (digit_not_colon h1 H1), (digit_not_colon h2 H2),
    (digit_not_colon m1 H3), (digit_not_colon m2 H4),
    (digit_not_colon s1 H5), (digit_not_colon s2 H6).
  change (Ascii.eqb ":" ":") with true. cbv iota.
  destruct (Number_two_digits h1 h2 H1 H2) as [x Hx].
  destruct (Number_two_digits m1 m2 H3 H4) as [y Hy].
  simpl. rewrite Hx, Hy. simpl. eauto.
Qed.

Lemma timeKey_isClock (t : Trip.t) : isClock (Trip.time t) = true -> is_Some (timeKey t).
Proof.
  unfold isClock. intros [H|H]%orb_true_iff;
    [by apply timeKey_HHMM|by apply timeKey_HHMMSS].
Qed.

Lemma upcoming_filter (current : Z) (trips : list Trip.t) :
  filter (fun nt => JS.ge (NextTrip.minutes nt) (Some 0) = true)
    (nextTripOf current <$> trips)
  = nextTripOf current <$>
      filter (fun trip => JS.ge (timeKey trip) (Some current) = true) trips.
Proof.
  induction trips as [|trip trips IH]; [done|].
  rewrite fmap_cons, !filter_cons, IH.
  assert (Heq : JS.ge (NextTrip.minutes (nextTripOf current trip)) (Some 0)
                = JS.ge (timeKey trip) (Some current)).
  { simpl. destruct (timeKey trip) as [k|]; [|done]. simpl.
    destruct (Z.leb_spec 0 (k - current)), (Z.leb_spec current k); done || lia. }
  rewrite Heq. by destruct (JS.ge (timeKey trip) (Some current)).
Qed.

(** For a timetable whose times are clock times, HH:MM or HH:MM:SS:
    what the page lists as next trips is at most [maxTrips] entries, each
    made from a trip of the timetable whose clock time is not before
    now, with the minutes left, in non-decreasing order of these minutes,
    whatever the order of the timetable. *)
Theorem next_trips_upcoming_sorted (nowHours nowMinutes : Z) (trips : list Trip.t)
    (maxTrips : nat) :
  Forall (fun trip => isClock (Trip.time trip) = true) trips ->
  (length (getNextTrips nowHours nowMinutes trips maxTrips) <= maxTrips)%nat /\
  Forall (fun nt =>
            exists (trip : Trip.t) (d : Z),
              trip ∈ trips /\ nt = nextTripOf (nowHours * 60 + nowMinutes) trip /\
              timeKey trip = Some (nowHours * 60 + nowMinutes + d) /\
              0 <= d /\ NextTrip.minutes nt = Some d)
    (getNextTrips nowHours nowMinutes trips maxTrips) /\
  StronglySorted (key_le NextTrip.minutes) (getNextTrips nowHours nowMinutes trips maxTrips).
Proof.
  intros _. rewrite getNextTrips_eq.
  set (current := nowHours * 60 + nowMinutes).
  set (upcoming := filter (fun trip => JS.ge (NextTrip.minutes trip) (Some 0) = true)
                     (nextTripOf current <$> trips)).
  assert (Hup : Forall (fun nt =>
            exists (trip : Trip.t) (d : Z),
              trip ∈ trips /\ nt = nextTripOf current trip /\
              timeKey trip = Some (current + d) /\
              0 <= d /\ NextTrip.minutes nt = Some d) upcoming).
  { apply Forall_forall. intros nt [Hge Hin]%list_elem_of_filter.
    apply list_elem_of_fmap in Hin as (trip & -> & Hin).
    destruct (upcoming_minutes _ Hge) as (d & Hd & Hpos).
    exists trip, d. split_and!; try done.
    simpl in Hd. destruct (timeKey trip) as [k|]; [|done]. simpl in Hd.
    f_equal. injection Hd as <-. lia. }
  split_and!.
  - rewrite length_take. lia.
  - apply Forall_take. by rewrite sort_perm.
  - apply StronglySorted_take_drop, sort_key_sorted.
    eapply Forall_impl; [exact Hup|]. intros nt (trip & d & _ & _ & _ & _ & ->). eauto.
Qed.

Lemma next_trips_upcoming_sorted_witness :
  StronglySorted (key_le NextTrip.minutes)
    (getNextTrips 9 30 (TimetableResult.trips Sample.unsorted_result) 5).
Proof.
  refine (proj2 (proj2 (next_trips_upcoming_sorted 9 30
            (TimetableResult.trips Sample.unsorted_result) 5 _))).
  repeat constructor.
Defined.

(** For a timetable whose times are clock times, HH:MM or HH:MM:SS, the
    page leaves out no trip in favour of a later one: the trips whose
    clock time is not before now are the listed ones and a rest, and no
    trip of the rest has fewer minutes left than a listed one. When
    [maxTrips] is at least their number all of them are listed. A trip
    is not among them only when its clock time is before now. *)
Theorem next_trips_earliest (nowHours nowMinutes : Z) (trips : list Trip.t)
    (maxTrips : nat) :
  Forall (fun trip => isClock (Trip.time trip) = true) trips ->
  let current := nowHours * 60 + nowMinutes in
  let upcoming :=
    nextTripOf current <$>
      filter (fun trip => JS.ge (timeKey trip) (Some current) = true) trips in
  (exists rest : list NextTrip.t,
     (getNextTrips nowHours nowMinutes trips maxTrips ++ rest)%list ≡ₚ upcoming /\
     forall a b : NextTrip.t,
       a ∈ getNextTrips nowHours nowMinutes trips maxTrips -> b ∈ rest ->
       key_le NextTrip.minutes a b) /\
  ((length upcoming <= maxTrips)%nat ->
   getNextTrips nowHours nowMinutes trips maxTrips ≡ₚ upcoming) /\
  (forall trip : Trip.t,
     trip ∈ trips ->
     nextTripOf current trip ∈ upcoming \/
     exists k : Z, timeKey trip = Some k /\ k < current).
Proof.
  intros Hclock current upcoming. rewrite getNextTrips_eq, upcoming_filter.
  fold current. fold upcoming.
  assert (Hkeys : Forall (fun nt => is_Some (NextTrip.minutes nt)) upcoming).
  { apply Forall_fmap, Forall_forall. intros trip [Hge _]%list_elem_of_filter.
    simpl. destruct (timeKey trip); [eauto|done]. }
  split_and!.
  - exists (drop maxTrips (JS.sort (keyCompare NextTrip.minutes) upcoming)). split.
    + by rewrite take_drop, sort_perm.
    + apply StronglySorted_take_drop. by apply sort_key_sorted.
  - intros Hlen. rewrite take_ge; [apply sort_perm|].
    by rewrite sort_perm.
  - intros trip Hin. rewrite Forall_forall in Hclock.
    destruct (timeKey_isClock trip (Hclock trip Hin)) as [k Hk].
    destruct (Z.leb_spec current k) as [Hle|Hlt].
    + left. apply list_elem_of_fmap. exists trip. split; [done|].
      apply list_elem_of_filter. split; [|done]. rewrite Hk. simpl. by apply Z.leb_le.
    + right. eauto.
Qed.

Lemma next_trips_earliest_witness :
  getNextTrips 9 30 (TimetableResult.trips Sample.unsorted_result) 5
  ≡ₚ nextTripOf (9 * 60 + 30) <$>
       filter (fun trip => JS.ge (timeKey trip) (Some (9 * 60 + 30)) = true)
         (TimetableResult.trips Sample.unsorted_result).
Proof.
  refine (proj1 (proj2 (next_trips_earliest 9 30
            (TimetableResult.trips Sample.unsorted_result) 5 _)) _).
  - repeat constructor.
  - vm_compute. lia.
Defined.

(** ** The clock time rebuilt from the date *)

Lemma ist_arith (instant : Z) :
  let h := (instant / 3600000) mod 24 in
  let m := (instant / 60000) mod 60 in
  istMinute instant = (if 60 <=? m + 30 then m + 30 - 60 else m + 30) /\
  istHour instant =
    (let h' := if 60 <=? m + 30 then h + 5 + 1 else h + 5 in
     if 24 <=? h' then h' - 24 else h').
Proof.
  unfold istMinute, istHour. cbv zeta.
  destruct (Z.leb_spec 60 ((instant / 60000) mod 60 + 30));
    [destruct (Z.leb_spec 24 ((instant / 3600000) mod 24 + 5 + 1))
    |destruct (Z.leb_spec 24 ((instant / 3600000) mod 24 + 5))];
    split; Z.div_mod_to_equations; lia.
Qed.

(** When the arrival text shows no clock time, the time of the trip is
    rebuilt from the date: for a valid date it is the hour and minute
    of the instant on a clock at +05:30, two digits each; for an invalid
    date it is the text NaN:NaN. *)
Theorem fallbackTimeString_ist :
  (forall instant : Z,
     fallbackTimeString (Some instant)
     = (JS.padStart2 (JS.String_of (Some (istHour instant))) ++ ":" ++
        JS.padStart2 (JS.String_of (Some (istMinute instant))))%string
     /\ 0 <= istHour instant < 24 /\ 0 <= istMinute instant < 60) /\
  fallbackTimeString None = "NaN:NaN".
Proof.
  split; [|reflexivity]. intros instant.
  destruct (ist_arith instant) as [Hm Hh]. cbv zeta in Hm, Hh.
  split_and!.
  - rewrite Hm, Hh. unfold fallbackTimeString.
    cbn [JS.getUTCHours JS.getUTCMinutes JS.add JS.ge].
    destruct (60 <=? (instant / 60000) mod 60 + 30); cbn [JS.add JS.sub JS.ge];
      match goal with |- context [24 <=? ?x] => destruct (24 <=? x) end; reflexivity.
  - unfold istHour. apply Z.mod_pos_bound. lia.
  - unfold istHour. apply Z.mod_pos_bound. lia.
  - unfold istMinute. apply Z.mod_pos_bound. lia.
  - unfold istMinute. apply Z.mod_pos_bound. lia.
Qed.

(** ** The date of an arrival *)

Lemma digit_in (c : ascii) :
  JS.is_digit c = true ->
  In c ["0"; "1"; "2"; "3"; "4"; "5"; "6"; "7"; "8"; "9"]%char.
Proof.
  destruct c as [[] [] [] [] [] [] [] []]; vm_compute; intros H;
    first [discriminate H | tauto].
Qed.

Lemma two_digits_back (s : string) :
  twoDigits s = true ->
  exists n : Z, JS.parseInt (Some s) = Some n /\ JS.padStart2 (JS.String_of (Some n)) = s.
Proof.
  destruct s as [|a [|b [|? ?]]]; try discriminate.
  intros Htwo. cbn [twoDigits] in Htwo.
  apply andb_true_iff in Htwo as [Ha%digit_in Hb%digit_in].
  assert (Hall : forallb (fun a => forallb (fun b =>
            match JS.parseInt (Some (String a (String b EmptyString))) with
            | Some n => String.eqb (JS.padStart2 (JS.String_of (Some n)))
                          (String a (String b EmptyString))
            | None => false
            end) ["0"; "1"; "2"; "3"; "4"; "5"; "6"; "7"; "8"; "9"]%char)
          ["0"; "1"; "2"; "3"; "4"; "5"; "6"; "7"; "8"; "9"]%char = true)
    by (vm_compute; reflexivity).
  rewrite forallb_forall in Hall. specialize (Hall a Ha).
  rewrite forallb_forall in Hall. specialize (Hall b Hb).
  destruct (JS.parseInt (Some (String a (String b EmptyString)))) as [n|]; [|done].
  exists n. split; [done|]. by apply String.eqb_eq.
Qed.

Lemma year_back (s : string) :
  yearText s = true ->
  exists n : Z, JS.parseInt (Some s) = Some n /\ JS.String_of (Some n) = s.
Proof.
  destruct s as [|a [|b [|c [|d [|? ?]]]]]; try discriminate.
  intros Hyear. cbn [yearText] in Hyear. rewrite !andb_true_iff in Hyear.
  destruct Hyear as [[[[Ha%digit_in Hz] Hb%digit_in] Hc%digit_in] Hd%digit_in].
  assert (Hall : forallb (fun a => forallb (fun b => forallb (fun c => forallb (fun d =>
            Ascii.eqb a "0" ||
            match JS.parseInt (Some (String a (String b (String c (String d EmptyString))))) with
            | Some n => String.eqb (JS.String_of (Some n))
                          (String a (String b (String c (String d EmptyString))))
            | None => false
            end) ["0"; "1"; "2"; "3"; "4"; "5"; "6"; "7"; "8"; "9"]%char)
          ["0"; "1"; "2"; "3"; "4"; "5"; "6"; "7"; "8"; "9"]%char)
          ["0"; "1"; "2"; "3"; "4"; "5"; "6"; "7"; "8"; "9"]%char)
          ["0"; "1"; "2"; "3"; "4"; "5"; "6"; "7"; "8"; "9"]%char = true)
    by (vm_compute; reflexivity).
  rewrite forallb_forall in Hall. specialize (Hall a Ha).
  rewrite forallb_forall in Hall. specialize (Hall b Hb).
  rewrite forallb_forall in Hall. specialize (Hall c Hc).
  rewrite forallb_forall in Hall. specialize (Hall d Hd).
  apply negb_true_iff in Hz. rewrite Hz in Hall. cbn [orb] in Hall.
  destruct (JS.parseInt _) as [n|]; [|done].
  exists n. split; [done|]. by apply String.eqb_eq.
Qed.

Lemma hasChar_app (c : ascii) (a b : string) :
  hasChar c (a ++ b) = hasChar c a || hasChar c b.
Proof.
  induction a as [|x a IH]; [done|]. rewrite append_cons. simpl.
  by rewrite IH, orb_assoc.
Qed.

Lemma digits_lack (sep : ascii) (s : string) :
  JS.is_digit sep = false -> JS.all_digits s = true -> hasChar sep s = false.
Proof.
  intros Hsep. induction s as [|c s IH]; [done|]. simpl.
  intros [Hc Hs]%andb_true_iff. rewrite (IH Hs), orb_false_r.
  destruct (Ascii.eqb_spec c sep) as [->|]; [congruence|done].
Qed.

Lemma twoDigits_all (s : string) : twoDigits s = true -> JS.all_digits s = true.
Proof.
  destruct s as [|a [|b [|? ?]]]; try discriminate. simpl.
  intros [-> ->]%andb_true_iff. done.
Qed.

Lemma yearText_all (s : string) : yearText s = true -> JS.all_digits s = true.
Proof.
  destruct s as [|a [|b [|c [|d [|? ?]]]]]; try discriminate. simpl.
  rewrite !andb_true_iff. intros [[[[-> _] ->] ->] ->]. done.
Qed.

Lemma split_none (sep : ascii) (s : string) :
  hasChar sep s = false -> JS.split sep s = [s].
Proof.
  induction s as [|c s IH]; [done|]. simpl.
  intros [Hc Hs]%orb_false_iff. by rewrite Hc, (IH Hs).
Qed.

Section DateFacts.

Variables dd mm yyyy : string.
Hypothesis Hdd : twoDigits dd = true.
Hypothesis Hmm : twoDigits mm = true.
Hypothesis Hyyyy : yearText yyyy = true.

Lemma bmtcDay_lacks (sep : ascii) :
  JS.is_digit sep = false -> Ascii.eqb "-" sep = false ->
  hasChar sep (bmtcDay dd mm yyyy) = false.
Proof.
  intros Hsep Hdash. unfold bmtcDay.
  rewrite hasChar_app. cbn [hasChar]. rewrite hasChar_app. cbn [hasChar].
  rewrite !(digits_lack sep) by auto using twoDigits_all, yearText_all.
  by rewrite Hdash.
Qed.

Lemma bmtcDay_split : JS.split "-" (bmtcDay dd mm yyyy) = [dd; mm; yyyy].
Proof.
  unfold bmtcDay.
  rewrite split_no_separator by (apply digits_lack; auto using twoDigits_all).
  rewrite split_no_separator by (apply digits_lack; auto using twoDigits_all).
  rewrite split_none by (apply digits_lack; auto using yearText_all). done.
Qed.

End DateFacts.

Section ClockFacts.

Variables hh mi ss : string.
Hypothesis Hhh : twoDigits hh = true.
Hypothesis Hmi : twoDigits mi = true.
Hypothesis Hss : twoDigits ss = true.

Lemma bmtcClock_lacks (sep : ascii) :
  JS.is_digit sep = false -> Ascii.eqb ":" sep = false ->
  hasChar sep (bmtcClock hh mi ss) = false.
Proof.
  intros Hsep Hcolon. unfold bmtcClock.
  rewrite hasChar_app. cbn [hasChar]. rewrite hasChar_app. cbn [hasChar].
  rewrite !(digits_lack sep) by auto using twoDigits_all.
  by rewrite Hcolon.
Qed.

Lemma bmtcClock_split : JS.split ":" (bmtcClock hh mi ss) = [hh; mi; ss].
Proof.
  unfold bmtcClock.
  rewrite split_no_separator by (apply digits_lack; auto using twoDigits_all).
  rewrite split_no_separator by (apply digits_lack; auto using twoDigits_all).
  rewrite split_none by (apply digits_lack; auto using twoDigits_all). done.
Qed.

Lemma bmtcClock_not_empty : JS.is_empty (bmtcClock hh mi ss) = false.
Proof.
  unfold bmtcClock. destruct hh as [|a ?]; [discriminate Hhh|]. done.
Qed.

End ClockFacts.

Lemma isoString_parts (day month year hours minutes seconds : option Z)
    (dd mm yyyy hh mi ss : string) :
  JS.String_of year = yyyy ->
  JS.padStart2 (JS.String_of month) = mm ->
  JS.padStart2 (JS.String_of day) = dd ->
  JS.padStart2 (JS.String_of hours) = hh ->
  JS.padStart2 (JS.String_of minutes) = mi ->
  JS.padStart2 (JS.String_of seconds) = ss ->
  (JS.String_of year ++ "-" ++ JS.padStart2 (JS.String_of month) ++ "-" ++
   JS.padStart2 (JS.String_of day) ++ "T" ++ JS.padStart2 (JS.String_of hours) ++ ":" ++
   JS.padStart2 (JS.String_of minutes) ++ ":" ++ JS.padStart2 (JS.String_of seconds) ++
   "+05:30")%string
  = isoDateText yyyy mm dd hh mi ss.
Proof. by intros -> -> -> -> -> ->. Qed.

(** An arrival text of the form DD-MM-YYYY HH:MM:SS is read as the
    date YYYY-MM-DDTHH:MM:SS+05:30, field by field, day and month
    swapped into place; without the clock part it is read as midnight
    of that day. *)
Theorem parseBMTCDate_wellformed (w : World) (dd mm yyyy hh mi ss : string) :
  twoDigits dd = true -> twoDigits mm = true -> yearText yyyy = true ->
  twoDigits hh = true -> twoDigits mi = true -> twoDigits ss = true ->
  parseBMTCDate w (bmtcDateText dd mm yyyy hh mi ss)
  = Date_parse w (isoDateText yyyy mm dd hh mi ss) /\
  parseBMTCDate w (bmtcDay dd mm yyyy)
  = Date_parse w (isoDateText yyyy mm dd "00" "00" "00").
Proof.
  intros Hdd Hmm Hyyyy Hhh Hmi Hss.
  destruct (two_digits_back dd Hdd) as (d & Hd & Hdback).
  destruct (two_digits_back mm Hmm) as (m & Hm & Hmback).
  destruct (year_back yyyy Hyyyy) as (y & Hy & Hyback).
  destruct (two_digits_back hh Hhh) as (h & Hh & Hhback).
  destruct (two_digits_back mi Hmi) as (n & Hn & Hnback).
  destruct (two_digits_back ss Hss) as (s & Hs & Hsback).
  split.
  - assert (Hparts : JS.split " " (bmtcDateText dd mm yyyy hh mi ss)
                     = [bmtcDay dd mm yyyy; bmtcClock hh mi ss]).
    { unfold bmtcDateText.
      rewrite split_no_separator by (by apply bmtcDay_lacks).
      by rewrite (split_none " " (bmtcClock hh mi ss)) by (by apply bmtcClock_lacks). }
    unfold parseBMTCDate. rewrite Hparts.
    cbn [nth lookup list_lookup JS.falsy].
    rewrite bmtcClock_not_empty by done.
    rewrite bmtcDay_split, bmtcClock_split by done.
    cbn [lookup list_lookup]. rewrite Hd, Hm, Hy, Hh, Hn, Hs. cbn [JS.sub JS.add].
    replace (m - 1 + 1) with m by lia. f_equal. by apply isoString_parts.
  - unfold parseBMTCDate.
    rewrite (split_none " " (bmtcDay dd mm yyyy)) by (by apply bmtcDay_lacks).
    cbn [nth lookup list_lookup JS.falsy].
    rewrite bmtcDay_split by done.
    cbn [lookup list_lookup]. rewrite Hd, Hm, Hy. cbn [JS.sub JS.add].
    replace (m - 1 + 1) with m by lia. f_equal. by apply isoString_parts.
Qed.

Lemma parseBMTCDate_wellformed_witness :
  parseBMTCDate (Sample.world None LiveRejects)
    (bmtcDateText "31" "10" "2025" "14" "30" "00")
  = Date_parse (Sample.world None LiveRejects)
      (isoDateText "2025" "10" "31" "14" "30" "00").
Proof.
  refine (proj1 (parseBMTCDate_wellformed (Sample.world None LiveRejects)
            "31" "10" "2025" "14" "30" "00" _ _ _ _ _ _)); reflexivity.
Defined.

(** ** Trimming *)

Lemma ws_not_special (c : ascii) :
  JS.is_ws c = true -> Ascii.eqb c dquote = false /\ Ascii.eqb c "," = false.
Proof. destruct c as [[] [] [] [] [] [] [] []]; vm_compute; split; congruence. Qed.

Lemma allWs_lacks (a : string) :
  allWs a = true -> hasChar dquote a = false /\ hasChar "," a = false.
Proof.
  induction a as [|c a IH]; [done|]. simpl.
  intros [Hc Ha]%andb_true_iff. destruct (IH Ha) as [-> ->].
  destruct (ws_not_special c Hc) as [-> ->]. done.
Qed.

Lemma trimStart_decomp (s : string) :
  exists a : string, allWs a = true /\ s = (a ++ JS.trimStart s)%string.
Proof.
  induction s as [|c s (a & Ha & Hs)]; [by exists EmptyString|]. simpl.
  destruct (JS.is_ws c) eqn:Hc.
  - exists (String c a). simpl. rewrite Hc, Ha. split; [done|].
    rewrite append_cons. congruence.
  - by exists EmptyString.
Qed.

Lemma trimEnd_decomp (s : string) :
  exists b : string, allWs b = true /\ s = (JS.trimEnd s ++ b)%string.
Proof.
  induction s as [|c s (b & Hb & Hs)]; [by exists EmptyString|]. cbn [JS.trimEnd].
  destruct (JS.is_ws c && JS.is_empty (JS.trimEnd s)) eqn:Hcond.
  - apply andb_true_iff in Hcond as [Hc He].
    destruct (JS.trimEnd s); [|done]. rewrite append_nil_l in Hs.
    exists (String c b). simpl. rewrite Hc, Hb. split; [done|]. by rewrite Hs at 1.
  - exists b. split; [done|]. rewrite append_cons. congruence.
Qed.

Lemma trim_decomp (s : string) :
  exists a b : string,
    allWs a = true /\ allWs b = true /\ s = (a ++ JS.trim s ++ b)%string.
Proof.
  destruct (trimStart_decomp s) as (a & Ha & Hs).
  destruct (trimEnd_decomp (JS.trimStart s)) as (b & Hb & Ht).
  exists a, b. split_and!; [done|done|]. unfold JS.trim. congruence.
Qed.

Lemma trimStart_allWs (a : string) : allWs a = true -> JS.trimStart a = EmptyString.
Proof.
  induction a as [|c a IH]; [done|]. simpl. intros [-> Ha]%andb_true_iff. auto.
Qed.

Lemma trimEnd_allWs (a : string) : allWs a = true -> JS.trimEnd a = EmptyString.
Proof.
  induction a as [|c a IH]; [done|]. cbn [JS.trimEnd allWs].
  intros [-> Ha]%andb_true_iff. by rewrite (IH Ha).
Qed.

Lemma trimStart_app (s b : string) :
  JS.trimStart (s ++ b)
  = if JS.is_empty (JS.trimStart s) then JS.trimStart b else (JS.trimStart s ++ b)%string.
Proof.
  induction s as [|c s IH]; [done|]. rewrite append_cons. simpl.
  destruct (JS.is_ws c); [done|]. simpl. by rewrite append_cons.
Qed.

Lemma trimEnd_app_ws (s b : string) :
  allWs b = true -> JS.trimEnd (s ++ b) = JS.trimEnd s.
Proof.
  intros Hb. induction s as [|c s IH].
  - rewrite append_nil_l. by apply trimEnd_allWs.
  - rewrite append_cons. cbn [JS.trimEnd]. by rewrite IH.
Qed.

Lemma trim_ws_prefix (a s : string) : allWs a = true -> JS.trim (a ++ s) = JS.trim s.
Proof.
  intros Ha. unfold JS.trim. f_equal.
  rewrite trimStart_app, (trimStart_allWs a Ha). done.
Qed.

Lemma trim_app_ws (s b : string) : allWs b = true -> JS.trim (s ++ b) = JS.trim s.
Proof.
  intros Hb. unfold JS.trim. rewrite trimStart_app.
  destruct (JS.trimStart s) eqn:Hs; cbn [JS.is_empty].
  - by rewrite (trimStart_allWs b Hb).
  - by rewrite trimEnd_app_ws.
Qed.

Lemma trimEnd_idem (s : string) : JS.trimEnd (JS.trimEnd s) = JS.trimEnd s.
Proof.
  induction s as [|c s IH]; [done|]. cbn [JS.trimEnd].
  destruct (JS.is_ws c && JS.is_empty (JS.trimEnd s)) eqn:Hcond; [done|].
  cbn [JS.trimEnd]. by rewrite IH, Hcond.
Qed.

Lemma trim_idem (s : string) : JS.trim (JS.trim s) = JS.trim s.
Proof.
  unfold JS.trim.
  assert (Hfix : JS.trimStart (JS.trimEnd (JS.trimStart s)) = JS.trimEnd (JS.trimStart s)).
  { assert (Hlead : match JS.trimStart s with
                    | String c _ => JS.is_ws c = false
                    | EmptyString => True
                    end).
    { induction s as [|c s IH]; [done|]. simpl.
      destruct (JS.is_ws c) eqn:Hc; done. }
    destruct (JS.trimStart s) as [|c t]; [done|]. cbn [JS.trimEnd].
    rewrite Hlead. cbn [andb JS.trimStart]. by rewrite Hlead. }
  by rewrite Hfix, trimEnd_idem.
Qed.

Lemma trim_lacks (c : ascii) (s : string) :
  hasChar c s = false -> hasChar c (JS.trim s) = false.
Proof.
  destruct (trim_decomp s) as (a & b & _ & _ & Hs). intros Hc.
  rewrite Hs, !hasChar_app in Hc.
  apply orb_false_iff in Hc as [_ Hc]. by apply orb_false_iff in Hc as [? _].
Qed.

(** ** More on the line reader *)

Lemma parseCSVLine_from_ws_prefix (a line : string) (result : list string)
    (current : string) (inQuotes : bool) :
  allWs a = true ->
  parseCSVLine_from line result (a ++ current) inQuotes
  = parseCSVLine_from line result current inQuotes.
Proof.
  intros Ha. revert result current inQuotes.
  induction line as [|c line IH]; intros result current inQuotes; cbn [parseCSVLine_from].
  - by rewrite trim_ws_prefix.
  - destruct (Ascii.eqb c dquote); [apply IH|].
    destruct (Ascii.eqb c "," && negb inQuotes).
    + by rewrite trim_ws_prefix.
    + rewrite append_assoc. apply IH.
Qed.

Lemma parseCSVLine_from_ws_suffix (b line : string) (result : list string)
    (current : string) (inQuotes : bool) :
  allWs b = true ->
  parseCSVLine_from (line ++ b) result current inQuotes
  = parseCSVLine_from line result current inQuotes.
Proof.
  intros Hb. revert result current inQuotes.
  induction line as [|c line IH]; intros result current inQuotes.
  - rewrite append_nil_l. rewrite <- (append_nil_r b) at 1.
    destruct (allWs_lacks b Hb) as [Hq Hc].
    rewrite parseCSVLine_from_content by auto.
    cbn [parseCSVLine_from]. by rewrite trim_app_ws.
  - rewrite append_cons. cbn [parseCSVLine_from].
    destruct (Ascii.eqb c dquote); [apply IH|].
    destruct (Ascii.eqb c "," && negb inQuotes); apply IH.
Qed.

Lemma parseCSVLine_trim (raw : string) : parseCSVLine (JS.trim raw) = parseCSVLine raw.
Proof.
  destruct (trim_decomp raw) as (a & b & Ha & Hb & Hraw).
  unfold parseCSVLine. rewrite Hraw at 2.
  destruct (allWs_lacks a Ha) as [Hq Hc].
  rewrite parseCSVLine_from_content by auto.
  rewrite parseCSVLine_from_ws_suffix by done.
  rewrite <- (append_nil_r (EmptyString ++ a)), append_nil_l.
  by rewrite parseCSVLine_from_ws_prefix.
Qed.

Lemma split_not_nil (sep : ascii) (s : string) : JS.split sep s <> [].
Proof.
  induction s as [|c s IH]; [done|]. simpl.
  destruct (Ascii.eqb c sep); [done|]. by destruct (JS.split sep s).
Qed.

Lemma parseCSVLine_from_split (line : string) (result : list string) (current : string) :
  hasChar dquote line = false ->
  parseCSVLine_from line result current false =
  (result ++ (JS.trim <$>
     match JS.split "," line with
     | h :: t => (current ++ h)%string :: t
     | [] => [current]
     end))%list.
Proof.
  revert result current. induction line as [|c line IH]; intros result current Hq.
  - simpl. by rewrite append_nil_r.
  - cbn [hasChar] in Hq. apply orb_false_iff in Hq as [Hc Hq].
    cbn [parseCSVLine_from JS.split]. rewrite Hc.
    destruct (Ascii.eqb c ",") eqn:Hcomma; cbn [andb negb].
    + rewrite IH by done. rewrite append_nil_r, <- app_assoc. simpl.
      pose proof (split_not_nil "," line) as Hne.
      destruct (JS.split "," line) as [|h t]; [done|]. by rewrite append_nil_l.
    + rewrite IH by done.
      pose proof (split_not_nil "," line) as Hne.
      destruct (JS.split "," line) as [|h t]; [done|].
      by rewrite append_assoc, append_cons, append_nil_l.
Qed.

Lemma parseCSVLine_from_fields (line : string) (result : list string)
    (current : string) (inQuotes : bool) :
  Forall (fun f => JS.trim f = f /\ hasChar dquote f = false) result ->
  hasChar dquote current = false ->
  Forall (fun f => JS.trim f = f /\ hasChar dquote f = false)
    (parseCSVLine_from line result current inQuotes)
  /\ (length result < length (parseCSVLine_from line result current inQuotes))%nat.
Proof.
  revert result current inQuotes.
  induction line as [|c line IH]; intros result current inQuotes Hres Hcur;
    cbn [parseCSVLine_from].
  - split; [|rewrite length_app; simpl; lia].
    apply Forall_app. split; [done|]. apply Forall_singleton.
    split; [apply trim_idem|by apply trim_lacks].
  - destruct (Ascii.eqb c dquote) eqn:Hc; [by apply IH|].
    destruct (Ascii.eqb c "," && negb inQuotes).
    + destruct (IH (result ++ [JS.trim current])%list EmptyString inQuotes) as [Hf Hl].
      * apply Forall_app. split; [done|]. apply Forall_singleton.
        split; [apply trim_idem|by apply trim_lacks].
      * done.
      * split; [done|]. rewrite length_app in Hl. simpl in Hl. lia.
    + apply IH; [done|]. rewrite hasChar_app. simpl. by rewrite Hcur, Hc.
Qed.

(** On a line without quotes the reader gives the trimmed pieces
    between the commas, so as many fields as there are commas and one
    more. *)
Theorem parseCSVLine_unquoted (line : string) :
  hasChar dquote line = false ->
  parseCSVLine line = JS.trim <$> JS.split "," line.
Proof.
  intros Hq. unfold parseCSVLine. rewrite parseCSVLine_from_split by done.
  pose proof (split_not_nil "," line) as Hne.
  destruct (JS.split "," line) as [|h t]; [done|]. by rewrite append_nil_l.
Qed.

Lemma parseCSVLine_unquoted_witness :
  parseCSVLine "1, 500A ,,06:30 " = JS.trim <$> JS.split "," "1, 500A ,,06:30 ".
Proof. apply (parseCSVLine_unquoted "1, 500A ,,06:30 "). reflexivity. Defined.

(** The reader always returns at least one field; no field has white
    space at its ends, and no field holds a quote. Trimming the line
    before reading it changes nothing. *)
Theorem parseCSVLine_fields (line : string) :
  parseCSVLine line <> [] /\
  Forall (fun f => JS.trim f = f /\ hasChar dquote f = false) (parseCSVLine line) /\
  parseCSVLine (JS.trim line) = parseCSVLine line.
Proof.
  destruct (parseCSVLine_from_fields line [] EmptyString false) as [Hf Hl];
    [constructor|done|].
  split_and!; [|done|apply parseCSVLine_trim].
  unfold parseCSVLine. intros Hnil. rewrite Hnil in Hl. simpl in Hl. lia.
Qed.

(** ** The normalizer and white space *)

Lemma is_empty_app (a b : string) :
  JS.is_empty b = false -> JS.is_empty (a ++ b) = false.
Proof. by destruct a. Qed.

Lemma trimEnd_app_keep (x z : string) :
  JS.is_empty (JS.trimEnd z) = false ->
  JS.trimEnd (x ++ z) = (x ++ JS.trimEnd z)%string.
Proof.
  intros Hz. induction x as [|e x IH]; [done|].
  rewrite !append_cons. cbn [JS.trimEnd]. rewrite IH.
  by rewrite (is_empty_app x _ Hz), andb_false_r.
Qed.

Lemma contains_trimStart (s p : string) (c : ascii) :
  JS.is_ws c = false -> contains s (String c p) -> contains (JS.trimStart s) (String c p).
Proof.
  intros Hc (x & y & Hs). revert s Hs. induction x as [|e x IH]; intros s Hs.
  - rewrite append_nil_l, append_cons in Hs. subst s. simpl. rewrite Hc.
    exists EmptyString, y. done.
  - rewrite append_cons in Hs. subst s. simpl. destruct (JS.is_ws e).
    + by apply IH.
    + exists (String e x), y. by rewrite append_cons.
Qed.

Lemma contains_trimEnd (s p : string) (c : ascii) :
  JS.is_ws c = false ->
  contains s (p ++ String c EmptyString) -> contains (JS.trimEnd s) (p ++ String c EmptyString).
Proof.
  intros Hc (x & y & Hs). exists x, (JS.trimEnd y). subst s.
  assert (Hcy : JS.trimEnd (String c y) = String c (JS.trimEnd y)).
  { cbn [JS.trimEnd]. by rewrite Hc. }
  rewrite !append_assoc, !append_cons, !append_nil_l.
  rewrite trimEnd_app_keep.
  - rewrite trimEnd_app_keep; [by rewrite Hcy|]. by rewrite Hcy.
  - rewrite trimEnd_app_keep; [|by rewrite Hcy]. apply is_empty_app. by rewrite Hcy.
Qed.

Lemma contains_of_trim (s p : string) : contains (JS.trim s) p -> contains s p.
Proof.
  intros (x & y & Ht). destruct (trim_decomp s) as (a & b & _ & _ & Hs).
  exists (a ++ x)%string, (y ++ b)%string. rewrite Hs, Ht.
  by rewrite !append_assoc.
Qed.

Lemma contains_trim_iff (s p : string) (c e : ascii) :
  JS.is_ws c = false -> JS.is_ws e = false ->
  contains (JS.trim s) (String c (p ++ String e EmptyString))
  <-> contains s (String c (p ++ String e EmptyString)).
Proof.
  intros Hc He. split; [apply contains_of_trim|]. intros Hs. unfold JS.trim.
  rewrite <- append_cons. apply contains_trimEnd; [done|]. rewrite append_cons.
  by apply contains_trimStart.
Qed.

Lemma mapDestinationToLine_cases (d : string) :
  mapDestinationToLine (Some d) =
  if JS.includes (JS.trim d) "KR Pura" then "Purple Line"
  else if JS.includes (JS.trim d) "Silk Board" then "Yellow Line"
  else "Unknown".
Proof.
  unfold mapDestinationToLine. destruct d as [|c d]; [done|]. cbn [JS.is_empty].
  set (n := JS.trim (String c d)).
  assert (Heq : forall p, String.eqb n p || JS.includes n p = JS.includes n p).
  { intros p. destruct (String.eqb_spec n p) as [->|]; [|done].
    simpl. symmetry. apply includes_spec, contains_self. }
  by rewrite !Heq.
Qed.

(** The line the normalizer answers depends only on whether the names
    occur in the destination as it is given: trimming it first changes
    nothing, and white space around the destination has no effect. *)
Theorem mapDestinationToLine_untrimmed (d : string) :
  (mapDestinationToLine (Some d) = "Purple Line" <-> contains d "KR Pura") /\
  (mapDestinationToLine (Some d) = "Yellow Line" <->
   ~ contains d "KR Pura" /\ contains d "Silk Board") /\
  (mapDestinationToLine (Some d) = "Unknown" <->
   ~ contains d "KR Pura" /\ ~ contains d "Silk Board").
Proof.
  assert (Hk : JS.includes (JS.trim d) "KR Pura" = true <-> contains d "KR Pura").
  { rewrite includes_spec. by apply (contains_trim_iff d "R Pur" "K" "a"). }
  assert (Hs : JS.includes (JS.trim d) "Silk Board" = true <-> contains d "Silk Board").
  { rewrite includes_spec. by apply (contains_trim_iff d "ilk Boar" "S" "d"). }
  rewrite mapDestinationToLine_cases.
  destruct (JS.includes (JS.trim d) "KR Pura").
  - assert (Hyes : contains d "KR Pura") by (by apply Hk).
    split_and!; split; try done; intros [? ?]; done.
  - assert (Hno : ~ contains d "KR Pura") by (by intros ?%Hk).
    destruct (JS.includes (JS.trim d) "Silk Board").
    + assert (Hyes : contains d "Silk Board") by (by apply Hs).
      split_and!; split; try done; intros [? ?]; done.
    + assert (Hno' : ~ contains d "Silk Board") by (by intros ?%Hs).
      split_and!; split; try done; intros [? ?]; done.
Qed.

(** ** A timetable file without trips *)

Lemma fold_no_rows (lines : list string) (st : static_state) :
  omap rowTrip lines = [] -> fold_left static_step lines st = st.
Proof.
  revert st. induction lines as [|raw lines IH]; intros st Hrows; [done|].
  simpl in *. rewrite static_step_rowTrip.
  destruct (rowTrip raw); [done|]. by apply IH.
Qed.

(** A timetable file in which no line after the first stands for a
    trip, a file of one line or an empty file among them, gives the
    same empty timetable as a file that cannot be fetched. *)
Theorem static_without_trips :
  (forall csvText : string,
     TimetableResult.trips (parseStaticCSV csvText) = [] ->
     parseStaticCSV csvText = TimetableResult.empty) /\
  (forall csvText : string,
     hasChar newline csvText = false -> parseStaticCSV csvText = TimetableResult.empty) /\
  (forall (w : World) (stopId : string) (status : Z) (csvText : string),
     fetch_timetable w stopId = StaticResponse true status (Some csvText) ->
     hasChar newline csvText = false ->
     loadStaticTimetable w stopId = TimetableResult.empty).
Proof.
  assert (Hline : forall csvText : string,
     hasChar newline csvText = false -> parseStaticCSV csvText = TimetableResult.empty).
  { intros csvText Hnl. unfold parseStaticCSV. by rewrite split_none. }
  split_and!.
  - intros csvText Hnil. unfold parseStaticCSV in *. cbn [TimetableResult.trips] in Hnil.
    rewrite static_loop_trips in Hnil. simpl in Hnil.
    by rewrite fold_no_rows.
  - exact Hline.
  - intros w stopId status csvText Hfetch Hnl.
    unfold loadStaticTimetable, loadStaticTimetable_try. rewrite Hfetch. simpl.
    by apply Hline.
Qed.

Lemma static_without_trips_witness :
  parseStaticCSV "stop,route,time,towards" = TimetableResult.empty.
Proof.
  apply (proj1 (proj2 static_without_trips) "stop,route,time,towards"). reflexivity.
Defined.

(** ** The page's own reading of a timetable file *)

Lemma client_step_static_step (cl : client_state) (st : static_state) (raw : string) :
  cl_trips cl = st_trips st -> cl_routes cl = st_routes st ->
  cl_towards cl = st_towards st ->
  cl_trips (client_step cl raw) = st_trips (static_step st raw) /\
  cl_routes (client_step cl raw) = st_routes (static_step st raw) /\
  cl_towards (client_step cl raw) = st_towards (static_step st raw).
Proof.
  intros Ht Hr Hw. unfold client_step, static_step.
  rewrite parseCSVLine_trim.
  destruct (JS.is_empty (JS.trim raw)); [done|].
  destruct (4 <=? length (parseCSVLine raw))%nat; [|done].
  cbn [cl_trips cl_routes cl_towards st_trips st_routes st_towards].
  rewrite Ht, Hr, Hw. done.
Qed.

Lemma client_loop_static_loop (lines : list string) (cl : client_state) (st : static_state) :
  cl_trips cl = st_trips st -> cl_routes cl = st_routes st ->
  cl_towards cl = st_towards st ->
  cl_trips (fold_left client_step lines cl) = st_trips (fold_left static_step lines st) /\
  cl_routes (fold_left client_step lines cl) = st_routes (fold_left static_step lines st) /\
  cl_towards (fold_left client_step lines cl) = st_towards (fold_left static_step lines st).
Proof.
  revert cl st. induction lines as [|raw lines IH]; intros cl st Ht Hr Hw; [done|].
  simpl. destruct (client_step_static_step cl st raw Ht Hr Hw) as (? & ? & ?).
  by apply IH.
Qed.

(** From the same text of a timetable file the page builds the trips
    and the routes the handler builds, in the same order, though it
    reads each line untrimmed and keeps its routes in an array. Its
    direction is the handler's, except that it falls back on the
    direction it was called with where the handler says "Unknown". *)
Theorem client_agrees_with_handler (stopName towards csvText : string) :
  TimetableData.trips (clientTimetable stopName towards csvText)
  = TimetableResult.trips (parseStaticCSV csvText) /\
  TimetableData.routes (clientTimetable stopName towards csvText)
  = TimetableResult.routes (parseStaticCSV csvText) /\
  TimetableData.towards (clientTimetable stopName towards csvText)
  = (if String.eqb (TimetableResult.towards (parseStaticCSV csvText)) "Unknown"
     then towards
     else TimetableResult.towards (parseStaticCSV csvText)).
Proof.
  unfold clientTimetable, parseStaticCSV.
  cbn [TimetableData.trips TimetableData.routes TimetableData.towards
       TimetableResult.trips TimetableResult.routes TimetableResult.towards].
  destruct (client_loop_static_loop (tail (JS.split newline csvText))
              client_init static_init eq_refl eq_refl eq_refl) as (Ht & Hr & Hw).
  rewrite Ht, Hr, Hw. split_and!; [done|done|].
  unfold finalTowards_of.
  destruct (st_towards _) as [t|]; [|done].
  destruct (JS.is_empty t) eqn:He; [done|]. cbn [negb andb].
  destruct (String.eqb_spec t "Unknown") as [->|Hne]; [done|]. cbn [negb].
  by destruct (String.eqb_spec t "Unknown").
Qed.

(** ** The page's cache of timetables *)

(** For a stop id made of digits, as the stop ids are (such a key is
    never one the cache object inherits): after a call the cache holds
    the timetable returned under the stop id and its other entries are
    as before. A stop id that has an entry in the cache, whoever wrote
    it, is answered with that entry, without a fetch and without a
    change to the cache. So a call made on the cache as the first call
    left it returns the timetable of the first call, whatever has become
    of the file since and whatever name and direction it is called with,
    also when the first load failed and left the empty timetable. *)
Theorem loadTimetableForStop_cache (w : World) (cache : gmap string TimetableData.t)
    (stopId stopName towards : string) :
  JS.all_digits stopId = true ->
  let first := loadTimetableForStop w cache stopId stopName towards in
  snd first !! stopId = Some (fst first) /\
  (forall other : string, other <> stopId -> snd first !! other = cache !! other) /\
  (forall cached : TimetableData.t,
     cache !! stopId = Some cached -> first = (cached, cache)) /\
  (forall (w' : World) (stopName' towards' : string),
     loadTimetableForStop w' (snd first) stopId stopName' towards' = first).
Proof.
  intros _. cbv zeta.
  assert (Hhit : forall (w0 : World) (c : gmap string TimetableData.t) (n t : string)
                        (d : TimetableData.t),
            c !! stopId = Some d -> loadTimetableForStop w0 c stopId n t = (d, c)).
  { intros w0 c n t d Hd. unfold loadTimetableForStop. by rewrite Hd. }
  assert (Hfirst : snd (loadTimetableForStop w cache stopId stopName towards) !! stopId
                   = Some (fst (loadTimetableForStop w cache stopId stopName towards))).
  { unfold loadTimetableForStop. destruct (cache !! stopId) as [d|] eqn:Hd; [done|].
    destruct (loadTimetableForStop_try w stopId stopName towards); simpl;
      apply lookup_insert_eq. }
  split_and!.
  - exact Hfirst.
  - intros other Hne. unfold loadTimetableForStop.
    destruct (cache !! stopId) as [d|]; [done|].
    destruct (loadTimetableForStop_try w stopId stopName towards); simpl;
      by apply lookup_insert_ne.
  - intros cached Hc. by apply Hhit.
  - intros w' stopName' towards'.
    rewrite (Hhit w' _ stopName' towards' _ Hfirst).
    by destruct (loadTimetableForStop w cache stopId stopName towards).
Qed.

Lemma loadTimetableForStop_cache_witness :
  loadTimetableForStop (Sample.world (Some Sample.timetable_csv) LiveRejects)
    (snd (loadTimetableForStop (Sample.world None LiveRejects) ∅ "20568" "Stop" "Unknown"))
    "20568" "Stop" "Unknown"
  = (emptyData "Stop" "Unknown", {[ "20568" := emptyData "Stop" "Unknown" ]}).
Proof.
  rewrite (proj2 (proj2 (proj2 (loadTimetableForStop_cache
             (Sample.world None LiveRejects) ∅ "20568" "Stop" "Unknown" eq_refl)))
             (Sample.world (Some Sample.timetable_csv) LiveRejects) "Stop" "Unknown").
  reflexivity.
Defined.

(** ** The time shown for a live trip *)








